(** * Blue-green switching logic of jenkins-ha: a shallow embedding

    The development follows the Python sources:
    - [tests/blue-green/test_failure_scenarios.py]: circuit breaker,
      rollback trigger and execution, resource check;
    - [tests/blue-green/test_haproxy_routing.py]: routing generation;
    - [scripts/update-team-environment.py]: the operator script working
      on the YAML configuration file.

    Conventions.  Python [int] is [Z].  Python [float] values (clock
    readings, rates) are idealised as rationals [Q]: comparisons and the
    addition [time.time() + 1800] are exact.  Python [str] is [string],
    holding the text in UTF-8; a dict used as a map is a [gmap]; a dict
    with a fixed set of keys is a record.  A call of [time.time()] is an
    explicit argument holding the reading. *)

From Stdlib Require Import QArith.
From stdpp Require Import gmap strings list pretty.

Set Default Proof Using "Type".

(** ** Strings *)

Module Str.

(** Python's [sub in s] on strings. *)
Fixpoint contains (sub s : string) : bool :=
  String.prefix sub s ||
  match s with
  | EmptyString => false
  | String _ s' => contains sub s'
  end.

(** Python's [sep.join(parts)]. *)
Fixpoint join (sep : string) (parts : list string) : string :=
  match parts with
  | [] => ""
  | [p] => p
  | p :: rest => p +:+ sep +:+ join sep rest
  end.

(** Python's [len(s)]: the code points of a text held in UTF-8, which
    are its bytes other than continuation bytes [10xxxxxx]. *)
Fixpoint code_points (s : string) : nat :=
  match s with
  | EmptyString => 0
  | String (Ascii.Ascii _ _ _ _ _ _ false true) s' => code_points s'
  | String _ s' => S (code_points s')
  end.

End Str.

(** ** Rationals standing for floats *)

Module Num.

(** [x < y] on rationals, as a boolean. *)
Definition Qltb (x y : Q) : bool := negb (Qle_bool y x).

(** Nearest integer to [a / d] for [0 <= a], [0 < d], ties to even. *)
Definition round_half_even (a d : Z) : Z :=
  let fl := (a / d)%Z in
  let r := (a mod d)%Z in
  match (2 * r ?= d)%Z with
  | Lt => fl
  | Gt => (fl + 1)%Z
  | Eq => if Z.even fl then fl else (fl + 1)%Z
  end.

(** Two decimal digits of [n], for [0 <= n < 100]. *)
Definition two_digits (n : Z) : string :=
  if (n <? 10)%Z then "0" +:+ pretty n else pretty n.

(** The format specification [.2%]: the value times 100 with two
    decimals and a percent sign, [f"{0.1:.2%}" = "10.00%"].  The
    digits are those of the rational: where the float nearest to a
    decimal lies on the other side of a rounding boundary, Python
    prints a last digit one off. *)
Definition format_percent (x : Q) : string :=
  let n := round_half_even (Z.abs (Qnum x) * 10000) (Zpos (Qden x)) in
  (if (Qnum x <? 0)%Z then "-" else "") +:+
  pretty (n / 100)%Z +:+ "." +:+ two_digits (n mod 100)%Z +:+ "%".

End Num.

(** ** Circuit breaker ([TestCircuitBreakerPattern]) *)

Module CircuitBreaker.

(** The JSON document of the fixture [circuit_breaker_state]:
    [{"state": "closed", "failure_count": 0, "last_failure_time": None,
      "cooldown_until": 0}]. *)
Record cb_state := CbState {
  state : string;
  failure_count : Z;
  last_failure_time : option Q;
  cooldown_until : Q
}.

Definition initial_state : cb_state :=
  CbState "closed" 0 None 0.

(** [update_circuit_breaker(state, failure_occurred)].  [t_fail] is the
    clock reading stored in [last_failure_time], [t_open] the later
    reading used for the cooldown. *)
Definition update_circuit_breaker (t_fail t_open : Q)
    (st : cb_state) (failure_occurred : bool) : cb_state :=
  if failure_occurred then
    let st1 := CbState (state st) (failure_count st + 1) (Some t_fail)
                       (cooldown_until st) in
    if (3 <=? failure_count st1)%Z then
      CbState "open" (failure_count st1) (last_failure_time st1)
              (t_open + 1800)%Q
    else st1
  else
    CbState "closed" 0 (last_failure_time st) 0.

(** Reporting a run of failures, one pair of clock readings each. *)
Definition report_failures (readings : list (Q * Q)) (st : cb_state)
    : cb_state :=
  foldl (λ s r, update_circuit_breaker r.1 r.2 s true) st readings.

(** [can_execute_switch(cb_file)]: the argument [file] is the document
    stored in [cb_file], the second component of the result is the
    document stored there afterwards; [now] is [time.time()]. *)
Definition can_execute_switch (now : Q) (file : cb_state)
    : (bool * string) * cb_state :=
  if String.eqb (state file) "open" then
    if Num.Qltb now (cooldown_until file) then
      ((false, "Circuit breaker open - cooldown active"), file)
    else
      ((true, "Circuit breaker half-open - single attempt allowed"),
       CbState "half-open" (failure_count file) (last_failure_time file)
               (cooldown_until file))
  else
    ((true, "Circuit breaker closed - operations allowed"), file).

(** [attempt_recovery()] of [test_circuit_breaker_recovery]. *)
Definition attempt_recovery (now : Q) (file : cb_state)
    : (bool * string) * cb_state :=
  if String.eqb (state file) "open"
     && Qle_bool (cooldown_until file) now then
    ((true, "Transitioned to half-open state"),
     CbState "half-open" (failure_count file) (last_failure_time file)
             (cooldown_until file))
  else
    ((false, "Recovery not allowed yet"), file).

End CircuitBreaker.

(** ** Automatic rollback ([TestAutomaticRollback]) *)

Module Rollback.

(** [should_rollback(error_rate, response_time, availability)]: the
    list [rollback_conditions] after the three independent tests. *)
Definition should_rollback (error_rate : Q) (response_time : Z)
    (availability : Q) : list string :=
  let rollback_conditions := [] in
  let rollback_conditions :=
    if Num.Qltb 0.05 error_rate then
      rollback_conditions ++
        ["High error rate: " +:+ Num.format_percent error_rate]
    else rollback_conditions in
  let rollback_conditions :=
    if (5000 <? response_time)%Z then
      rollback_conditions ++
        ["High response time: " +:+ pretty response_time +:+ "ms"]
    else rollback_conditions in
  let rollback_conditions :=
    if Num.Qltb availability 0.95 then
      rollback_conditions ++
        ["Low availability: " +:+ Num.format_percent availability]
    else rollback_conditions in
  rollback_conditions.

(** One entry of [state["teams"]] in the fixture
    [blue_green_state_file]; the two rollback keys are absent until a
    rollback writes them. *)
Record team_state := TeamState {
  active_environment : string;
  last_switch_time : string;
  switch_count : Z;
  last_rollback_time : option string;
  last_rollback_reason : option string
}.

Record bg_state := BgState { teams : gmap string team_state }.

(** [execute_rollback(team_name, reason)]; the shared dict [state] is
    threaded through: the team entry is updated in place. *)
Definition execute_rollback (team_name reason : string) (state : bg_state)
    : (bool * string) * bg_state :=
  match teams state !! team_name with
  | None => ((false, "Team " +:+ team_name +:+ " not found"), state)
  | Some team =>
      let current_env := active_environment team in
      let target_env :=
        if String.eqb current_env "green" then "blue" else "green" in
      let team' :=
        TeamState target_env (last_switch_time team)
                  (switch_count team + 1)
                  (Some "2024-01-01T12:00:00Z") (Some reason) in
      ((true, "Rolled back " +:+ team_name +:+ " from " +:+ current_env
              +:+ " to " +:+ target_env),
       BgState (<[team_name := team']> (teams state)))
  end.

End Rollback.

(** ** Pre-switch validation ([TestPreSwitchValidation]) *)

Module Validator.

(** The dict [{"cpu": 80, "memory": 85}]. *)
Record thresholds := Thresholds { cpu : Z; memory : Z }.

Definition default_thresholds : thresholds := Thresholds 80 85.

(** The local list [issues] of [check_resource_availability] when the
    function returns. *)
Definition resource_issues (cpu_usage memory_usage : Z)
    (th : thresholds) : list string :=
  let issues := [] in
  let issues :=
    if (cpu th <? cpu_usage)%Z then
      issues ++ ["CPU usage too high: " +:+ pretty cpu_usage +:+
                 "% (max: " +:+ pretty (cpu th) +:+ "%)"]
    else issues in
  let issues :=
    if (memory th <? memory_usage)%Z then
      issues ++ ["Memory usage too high: " +:+ pretty memory_usage +:+
                 "% (max: " +:+ pretty (memory th) +:+ "%)"]
    else issues in
  issues.

(** [check_resource_availability(cpu_usage, memory_usage,
    thresholds=None)]. *)
Definition check_resource_availability (cpu_usage memory_usage : Z)
    (thresholds : option thresholds) : bool * string :=
  let thresholds := default default_thresholds thresholds in
  let issues := resource_issues cpu_usage memory_usage thresholds in
  match issues with
  | _ :: _ => (false, Str.join "; " issues)
  | [] => (true, "Resources available")
  end.

End Validator.

(** ** Routing generation ([TestHAProxyBlueGreenIntegration]) *)

Module Routing.

(** An element of [teams] / [team_configs]:
    [{"team_name": "devops", "active_environment": "blue"}]. *)
Record team := Team { team_name : string; active_environment : string }.

Record team_route := TeamRoute {
  acl : string;
  backend : string;
  primary_server : string;
  backup_server : string;
  health_check : string
}.

(** [configure_team_routing(teams)]: the dict [team_routing], filled in
    list order, a later entry of the same name replacing an earlier. *)
Definition configure_team_routing (teams : list team)
    : gmap string team_route :=
  foldl (λ team_routing team,
           let team_name := team_name team in
           let active_env := active_environment team in
           <[team_name :=
               TeamRoute
                 ("path_beg /" +:+ team_name +:+ "/")
                 ("jenkins_" +:+ team_name +:+ "_backend")
                 ("jenkins-" +:+ team_name +:+ "-" +:+ active_env)
                 ("jenkins-" +:+ team_name +:+ "-" +:+
                    (if String.eqb active_env "blue"
                     then "green" else "blue"))
                 ("httpchk GET /" +:+ team_name +:+ "/login")]>
             team_routing)
        ∅ teams.

Record backend_route := BackendRoute {
  primary : string;
  backup : string;
  active_port : Z
}.

Record routing_config := RoutingConfig {
  frontend : string;
  backends : gmap string backend_route
}.

(** [update_haproxy_routing(active_environment, team_configs)]. *)
Definition update_haproxy_routing (active_environment : string)
    (team_configs : list team) : routing_config :=
  RoutingConfig "jenkins_frontend"
    (foldl (λ backends team,
              let team_name := team_name team in
              let active_env := Routing.active_environment team in
              <[team_name :=
                  BackendRoute
                    ("jenkins-" +:+ team_name +:+ "-" +:+ active_env)
                    ("jenkins-" +:+ team_name +:+ "-" +:+
                       (if String.eqb active_env "blue"
                        then "green" else "blue"))
                    (if String.eqb active_env "blue"
                     then 8080 else 8081)]>
                backends)
           ∅ team_configs).

End Routing.

(** ** The operator script [update-team-environment.py] *)

Module TeamConfig.

(** *** Values loaded by [yaml.safe_load] *)

(** The kinds of value the script tells apart: null, booleans, integers,
    text, sequences and mappings with text keys.  A value is a tree:
    it stands for a document in which no alias ([*name]) makes two
    places one object, and which [yaml.dump] writes back as a text
    that loads to the same value.  Documents with aliases, and
    documents holding other kinds of value (floats, dates, the pairs of
    [!!omap]), are outside this model. *)

#[warnings="-register-all"]
Inductive yaml :=
| YNull
| YBool (b : bool)
| YInt (n : Z)
| YStr (s : string)
| YList (items : list yaml)
| YDict (entries : gmap string yaml).

(** Python exceptions the script can meet.  [OSError] and [YAMLError]
    carry the text that [{e}] interpolates. *)
Inductive exn :=
| TypeError
| AttributeError
| KeyError
| IndexError
| OSError (text : string)
| YAMLError (text : string).

Definition exn_text (e : exn) : string :=
  match e with
  | TypeError => "TypeError"
  | AttributeError => "AttributeError"
  | KeyError => "KeyError"
  | IndexError => "IndexError"
  | OSError text | YAMLError text => text
  end.

Inductive result (A : Type) :=
| Returned (a : A)
| Raised (e : exn).
Arguments Returned {A} a.
Arguments Raised {A} e.

(** Truth value of a Python object. *)
Definition truthy (v : yaml) : bool :=
  match v with
  | YNull => false
  | YBool b => b
  | YInt n => negb (n =? 0)%Z
  | YStr s => negb (String.eqb s "")
  | YList items => negb (Nat.eqb (length items) 0)
  | YDict entries => negb (Nat.eqb (size entries) 0)
  end.

(** [v == s] for a string [s]. *)
Definition eq_str (v : yaml) (s : string) : bool :=
  match v with
  | YStr s' => String.eqb s' s
  | _ => false
  end.

(** [key in v]. *)
Definition has_key (key : string) (v : yaml) : result bool :=
  match v with
  | YDict entries => Returned (bool_decide (is_Some (entries !! key)))
  | YStr s => Returned (Str.contains key s)
  | YList items => Returned (existsb (λ item, eq_str item key) items)
  | YNull | YBool _ | YInt _ => Raised TypeError
  end.

(** [v[key]] for a string [key]. *)
Definition subscript (v : yaml) (key : string) : result yaml :=
  match v with
  | YDict entries =>
      match entries !! key with
      | Some item => Returned item
      | None => Raised KeyError
      end
  | _ => Raised TypeError
  end.

(** [v.get(key, default)]. *)
Definition get (v : yaml) (key : string) (fallback : yaml) : result yaml :=
  match v with
  | YDict entries => Returned (default fallback (entries !! key))
  | _ => Raised AttributeError
  end.

(** The elements a [for] loop over [v] visits: the items of a list,
    the keys of a dict, the characters of a string. *)
Definition iterate (v : yaml) : result (list yaml) :=
  match v with
  | YList items => Returned items
  | YDict entries => Returned (YStr <$> (map_to_list entries).*1)
  | YStr s =>
      Returned ((λ c, YStr (String c EmptyString))
                <$> String.list_ascii_of_string s)
  | YNull | YBool _ | YInt _ => Raised TypeError
  end.

(** *** Files and console *)

(** What a file holds: a text [yaml.safe_load] parses to [doc], or a
    text it rejects with [parse_error]. *)
Inductive content :=
| Document (doc : yaml)
| Garbled (raw : string) (parse_error : string).

(** A log message: plain text, or text around [str(value)]. *)
Inductive message :=
| Plain (text : string)
| Around (before : string) (value : yaml) (after : string).

(** A console line; the timestamp of a log line is not recorded. *)
Inductive line :=
| LogInfo (msg : message)
| LogError (msg : message)
| LogSuccess (msg : message)
| Printed (text : string).

Record world := World {
  files : gmap string content;
  console : list line
}.

(** Outcome of a system call, decided by the environment. *)
Inductive io_outcome :=
| IoOk
| IoFails (text : string).

(** Outcome of writing a file: a failed write leaves the file
    untouched ([damage = None]) or holding [damage]. *)
Inductive write_outcome :=
| Written
| WriteFails (text : string) (damage : option content).

(** Outcome of [shutil.copy2]: a failed copy leaves its destination
    untouched ([damage = None]: it failed before opening it for
    writing) or, having opened and truncated it, holding [damage]. *)
Inductive copy_outcome :=
| Copied
| CopyFails (text : string) (damage : option content).

(** *** Computations: state, and exceptions *)

Definition M (A : Type) : Type := world → result A * world.

Definition ret {A} (a : A) : M A := λ w, (Returned a, w).

Definition bind {A B} (m : M A) (k : A → M B) : M B :=
  λ w, match m w with
       | (Returned a, w') => k a w'
       | (Raised e, w') => (Raised e, w')
       end.

Definition raise {A} (e : exn) : M A := λ w, (Raised e, w).

Definition lift {A} (r : result A) : M A := λ w, (r, w).

(** [try: m  except Exception as e: handler e]. *)
Definition try_except {A} (m : M A) (handler : exn → M A) : M A :=
  λ w, match m w with
       | (Returned a, w') => (Returned a, w')
       | (Raised e, w') => handler e w'
       end.

#[global] Instance M_ret : MRet M := @ret.
#[global] Instance M_bind : MBind M := λ A B k m, bind m k.

Definition emit (l : line) : M unit :=
  λ w, (Returned (), World (files w) (console w ++ [l])).

Definition log_info (message : string) : M unit :=
  emit (LogInfo (Plain message)).
Definition log_error (message : string) : M unit :=
  emit (LogError (Plain message)).
Definition log_success (message : string) : M unit :=
  emit (LogSuccess (Plain message)).
Definition print (text : string) : M unit := emit (Printed text).

(** [os.path.exists(path)]. *)
Definition exists_ (path : string) : M bool :=
  λ w, (Returned (bool_decide (is_Some (files w !! path))), w).

(** [open(path, 'r')] followed by reading the whole file. *)
Definition read_file (outcome : io_outcome) (path : string) : M content :=
  λ w, match outcome, files w !! path with
       | IoFails text, _ => (Raised (OSError text), w)
       | IoOk, None =>
           (Raised (OSError ("[Errno 2] No such file or directory: '"
                             +:+ path +:+ "'")), w)
       | IoOk, Some c => (Returned c, w)
       end.

(** [yaml.safe_load] on what was read. *)
Definition safe_load (c : content) : M yaml :=
  match c with
  | Document doc => ret doc
  | Garbled _ parse_error => raise (YAMLError parse_error)
  end.

(** [open(path, 'w')] followed by [yaml.dump(config, f, ...)]. *)
Definition write_yaml (outcome : write_outcome) (config : yaml)
    (path : string) : M unit :=
  λ w, match outcome with
       | Written =>
           (Returned (),
            World (<[path := Document config]> (files w)) (console w))
       | WriteFails text None => (Raised (OSError text), w)
       | WriteFails text (Some damaged) =>
           (Raised (OSError text),
            World (<[path := damaged]> (files w)) (console w))
       end.

(** The file at [path] now holds [c]. *)
Definition store (path : string) (c : content) : M unit :=
  λ w, (Returned (), World (<[path := c]> (files w)) (console w)).

(** [shutil.copy2(src, dst)]: the source is opened first, then the
    destination is opened for writing, and a copy that fails after
    that leaves the destination changed. *)
Definition copy2 (outcome : copy_outcome) (src dst : string) : M unit :=
  match outcome with
  | Copied => c ← read_file IoOk src; store dst c
  | CopyFails text None => raise (OSError text)
  | CopyFails text (Some damaged) =>
      read_file IoOk src ;; store dst damaged ;; raise (OSError text)
  end.

(** *** The script's functions *)

(** [backup_config_file(config_path)]; [timestamp] is the formatted
    clock reading. *)
Definition backup_config_file (timestamp : string) (copy : copy_outcome)
    (config_path : string) : M (option string) :=
  let backup_path := config_path +:+ ".backup_" +:+ timestamp in
  try_except
    (copy2 copy config_path backup_path ;;
     log_info ("Created backup: " +:+ backup_path) ;;
     ret (Some backup_path))
    (λ e, log_error ("Failed to create backup: " +:+ exn_text e) ;;
          ret None).

(** [load_yaml_config(config_path)]; Python's [None] is [YNull]. *)
Definition load_yaml_config (read : io_outcome) (config_path : string)
    : M yaml :=
  try_except
    (c ← read_file read config_path; safe_load c)
    (λ e, log_error ("Failed to load config " +:+ config_path +:+ ": "
                     +:+ exn_text e) ;;
          ret YNull).

(** [save_yaml_config(config, config_path)]. *)
Definition save_yaml_config (write : write_outcome) (config : yaml)
    (config_path : string) : M bool :=
  try_except
    (write_yaml write config config_path ;; ret true)
    (λ e, log_error ("Failed to save config " +:+ config_path +:+ ": "
                     +:+ exn_text e) ;;
          ret false).

(** The loop of [find_team_in_config], from index [i] on.  A team
    record that is returned answered [.get], so it is a mapping: the
    result carries its entries. *)
Fixpoint find_team_from (i : Z) (teams : list yaml) (team_name : string)
    : result (option (gmap string yaml) * Z) :=
  match teams with
  | [] => Returned (None, (-1)%Z)
  | YDict team_config :: rest =>
      if eq_str (default YNull (team_config !! "team_name")) team_name
      then Returned (Some team_config, i)
      else find_team_from (i + 1) rest team_name
  | _ :: _ => Raised AttributeError
  end.

(** [find_team_in_config(config, team_name)]. *)
Definition find_team_in_config (config : yaml) (team_name : string)
    : M (option (gmap string yaml) * Z) :=
  present ← lift (has_key "jenkins_teams_config" config);
  if negb present then
    log_error "jenkins_teams_config not found in configuration" ;;
    ret (None, (-1)%Z)
  else
    teams ← lift (subscript config "jenkins_teams_config");
    items ← lift (iterate teams);
    lift (find_team_from 0 items team_name).

(** [validate_environment(environment)]. *)
Definition validate_environment (environment : string) : M bool :=
  if negb (bool_decide (environment ∈ ["blue"; "green"])) then
    log_error ("Invalid environment: " +:+ environment +:+
               ". Must be 'blue' or 'green'") ;;
    ret false
  else ret true.

(** [config['jenkins_teams_config'][team_index]['active_environment']
    = new_environment]: the configuration after the assignment. *)
Definition assign_active_environment (config : yaml) (team_index : Z)
    (new_environment : string) : result yaml :=
  match config with
  | YDict entries =>
      match entries !! "jenkins_teams_config" with
      | Some (YList teams) =>
          match teams !! Z.to_nat team_index with
          | Some (YDict team_config) =>
              Returned
                (YDict
                   (<["jenkins_teams_config" :=
                        YList
                          (<[Z.to_nat team_index :=
                               YDict (<["active_environment" :=
                                          YStr new_environment]>
                                        team_config)]> teams)]>
                      entries))
          | Some _ => Raised TypeError
          | None => Raised IndexError
          end
      | Some _ => Raised TypeError
      | None => Raised KeyError
      end
  | _ => Raised TypeError
  end.

(** What the environment decides during one run of
    [update_team_environment]. *)
Record update_io := UpdateIo {
  backup_stamp : string;
  backup_copy : copy_outcome;
  load_read : io_outcome;
  save_write : write_outcome;
  restore_copy : copy_outcome;
  verify_read : io_outcome
}.

(** [update_team_environment(team_name, new_environment, config_path)]. *)
Definition update_team_environment (io : update_io)
    (team_name new_environment config_path : string) : M bool :=
  valid ← validate_environment new_environment;
  if negb valid then ret false else
  found ← exists_ config_path;
  if negb found then
    log_error ("Configuration file not found: " +:+ config_path) ;;
    ret false
  else
  backup_path ← backup_config_file (backup_stamp io) (backup_copy io)
                  config_path;
  match backup_path with
  | None => ret false
  | Some backup_path =>
  config ← load_yaml_config (load_read io) config_path;
  match config with
  | YNull => ret false
  | _ =>
  '(team_config, team_index) ← find_team_in_config config team_name;
  match team_config with
  | None =>
      log_error ("Team '" +:+ team_name +:+
                 "' not found in configuration") ;;
      ret false
  | Some team_config =>
  let current_environment :=
    default (YStr "blue") (team_config !! "active_environment") in
  if eq_str current_environment new_environment then
    log_info ("Team '" +:+ team_name +:+ "' is already on environment '"
              +:+ new_environment +:+ "'") ;;
    ret true
  else
  emit (LogInfo (Around ("Updating team '" +:+ team_name +:+ "' from '")
                        current_environment
                        ("' to '" +:+ new_environment +:+ "'"))) ;;
  config ← lift (assign_active_environment config team_index
                   new_environment);
  saved ← save_yaml_config (save_write io) config config_path;
  if negb saved then
    log_error "Failed to save updated configuration" ;;
    try_except
      (copy2 (restore_copy io) backup_path config_path ;;
       log_info "Restored configuration from backup")
      (λ e, log_error ("Failed to restore backup: " +:+ exn_text e)) ;;
    ret false
  else
  log_success ("Successfully updated team '" +:+ team_name +:+
               "' to environment '" +:+ new_environment +:+ "'") ;;
  verify_config ← load_yaml_config (verify_read io) config_path;
  if truthy verify_config then
    '(verify_team_config, _) ←
       find_team_in_config verify_config team_name;
    match verify_team_config with
    | Some verify_team_config =>
        if negb (Nat.eqb (size verify_team_config) 0)
           && eq_str (default YNull
                        (verify_team_config !! "active_environment"))
                     new_environment
        then log_success "Configuration change verified" ;; ret true
        else log_error "Configuration verification failed" ;; ret false
    | None =>
        log_error "Configuration verification failed" ;; ret false
    end
  else ret true
  end end end.

(** [" " * n]. *)
Fixpoint spaces (n : nat) : string :=
  match n with
  | O => ""
  | S n' => " " +:+ spaces n'
  end.

(** The format specification [:width] in an f-string: text is padded
    on the right, numbers (and booleans, which are numbers) on the
    left; [None], lists and dicts refuse a format specification. *)
Definition format_width (width : nat) (v : yaml) : result string :=
  match v with
  | YStr s => Returned (s +:+ spaces (width - Str.code_points s))
  | YInt n =>
      Returned (spaces (width - String.length (pretty n)) +:+ pretty n)
  | YBool b =>
      Returned (spaces (width - 1) +:+ (if b then "1" else "0"))
  | YNull | YList _ | YDict _ => Raised TypeError
  end.

(** The body of the loop of [show_team_environments], over the
    remaining team records. *)
Fixpoint show_rows (teams : list yaml) : M unit :=
  match teams with
  | [] => ret ()
  | team_config :: rest =>
      team_name ← lift (get team_config "team_name" (YStr "unknown"));
      environment ←
        lift (get team_config "active_environment" (YStr "unknown"));
      blue_green_enabled ←
        lift (get team_config "blue_green_enabled" (YBool false));
      let status :=
        if truthy blue_green_enabled then "✅ Enabled" else "❌ Disabled" in
      name_text ← lift (format_width 8 team_name);
      environment_text ← lift (format_width 5 environment);
      print ("Team: " +:+ name_text +:+ " | Environment: " +:+
             environment_text +:+ " | Blue-Green: " +:+ status) ;;
      show_rows rest
  end.

(** [show_team_environments(config_path)]. *)
Definition show_team_environments (read : io_outcome)
    (config_path : string) : M bool :=
  found ← exists_ config_path;
  if negb found then
    log_error ("Configuration file not found: " +:+ config_path) ;;
    ret false
  else
  config ← load_yaml_config read config_path;
  match config with
  | YNull => ret false
  | _ =>
  present ← lift (has_key "jenkins_teams_config" config);
  if negb present then
    log_error "jenkins_teams_config not found in configuration" ;;
    ret false
  else
  print (String (Ascii.ascii_of_nat 10)
                 "=== Current Team Environments ===") ;;
  teams ← lift (subscript config "jenkins_teams_config");
  items ← lift (iterate teams);
  show_rows items ;;
  print "" ;;
  ret true
  end.

(** [repr] of a list of field names: ["['a', 'b']"]. *)
Definition repr_fields (fields : list string) : string :=
  "[" +:+ Str.join ", " ((λ f, "'" +:+ f +:+ "'") <$> fields) +:+ "]".

Definition required_fields : list string :=
  ["team_name"; "blue_green_enabled"; "active_environment"; "ports"].

(** The list [missing_fields] after the loop over [required_fields]. *)
Definition missing_fields (team_config : gmap string yaml) : list string :=
  List.filter (λ field, negb (bool_decide (is_Some (team_config !! field))))
              required_fields.

(** [validate_team_configuration(config_path, team_name)]. *)
Definition validate_team_configuration (read : io_outcome)
    (config_path team_name : string) : M bool :=
  config ← load_yaml_config read config_path;
  match config with
  | YNull => ret false
  | _ =>
  '(team_config, _) ← find_team_in_config config team_name;
  match team_config with
  | None =>
      log_error ("Team '" +:+ team_name +:+ "' not found") ;;
      ret false
  | Some team_config =>
  let missing_fields := missing_fields team_config in
  if negb (Nat.eqb (length missing_fields) 0) then
    log_error ("Team '" +:+ team_name +:+ "' missing required fields: "
               +:+ repr_fields missing_fields) ;;
    ret false
  else
  if negb (truthy (default (YBool false)
                     (team_config !! "blue_green_enabled"))) then
    log_error ("Team '" +:+ team_name +:+
               "' does not have blue-green deployment enabled") ;;
    ret false
  else
  log_success ("Team '" +:+ team_name +:+ "' configuration is valid") ;;
  ret true
  end end.

End TeamConfig.

(** ** The command line of [update-team-environment.py] *)

Module Cli.
Import TeamConfig.

(** The text [main] prints when no command is given. *)
Definition usage : string :=
  Str.join (String (Ascii.ascii_of_nat 10) "")
    [""; "Usage: update-team-environment.py <command> [options]";
     "";
     "COMMANDS:";
     "    update <team> <environment>     - Update team's active environment";
     "    show                           - Show current environments for all teams  ";
     "    validate <team>                - Validate team configuration";
     "    ";
     "EXAMPLES:";
     "    python3 update-team-environment.py update devops green";
     "    python3 update-team-environment.py show";
     "    python3 update-team-environment.py validate ma";
     "";
     "ENVIRONMENTS:";
     "    blue    - Blue environment";
     "    green   - Green environment";
     "        "].

(** [main()].  [argv] is [sys.argv], [config_path] the text of the
    default configuration path, which the script computes from its own
    location; [io] and [read] are what the environment decides for the
    command that runs.  The value returned is the argument of
    [sys.exit], with which every branch of [main] ends. *)
Definition main (argv : list string) (config_path : string)
    (io : update_io) (read : io_outcome) : M Z :=
  match argv with
  | [] | [_] => print usage ;; mret 1%Z
  | _ :: command :: arguments =>
      if String.eqb command "update" then
        match arguments with
        | [team_name; new_environment] =>
            succeeded ← update_team_environment io team_name new_environment
                     config_path;
            if succeeded : bool then mret 0%Z else mret 1%Z
        | _ =>
            log_error
              "Usage: update-team-environment.py update <team> <environment>" ;;
            mret 1%Z
        end
      else if String.eqb command "show" then
        succeeded ← show_team_environments read config_path;
        if succeeded : bool then mret 0%Z else mret 1%Z
      else if String.eqb command "validate" then
        match arguments with
        | [team_name] =>
            succeeded ← validate_team_configuration read config_path team_name;
            if succeeded : bool then mret 0%Z else mret 1%Z
        | _ =>
            log_error "Usage: update-team-environment.py validate <team>" ;;
            mret 1%Z
        end
      else
        log_error ("Unknown command: " +:+ command) ;;
        mret 1%Z
  end.

(** The exit status of the process: the argument of [sys.exit], or 1
    when an exception ends the script with a traceback. *)
Definition exit_status (r : result Z) : Z :=
  match r with
  | Returned status => status
  | Raised _ => 1%Z
  end.

End Cli.

(** ** Validation after rollback ([test_rollback_validation]) *)

Module RollbackValidation.
Import Rollback.

(** A result, or the [KeyError] of a subscript on a missing key. *)
Inductive lookup_result (A : Type) :=
| Found (a : A)
| KeyError (key : string).
Arguments Found {A} a.
Arguments KeyError {A} key.

(** [validate_rollback_success(team_name, previous_env)]; [file] is the
    state stored in [blue_green_state_file]. *)
Definition validate_rollback_success (file : bg_state)
    (team_name previous_env : string) : lookup_result (bool * string) :=
  match teams file !! team_name with
  | None => KeyError team_name
  | Some team =>
      let current_env := active_environment team in
      if String.eqb current_env previous_env then
        Found (false, "Rollback failed: still on " +:+ current_env)
      else if (switch_count team =? 0)%Z then
        Found (false, "Switch count not updated")
      else
        Found (true, "Rollback successful: " +:+ previous_env +:+ " -> "
                     +:+ current_env)
  end.

End RollbackValidation.

(** ** Active-build check ([test_active_builds_prevention]) *)

Module Builds.

(** A build of a job: [{"building": True, "number": 1}]; the key
    [building] may be absent. *)
Record build := Build { building : option bool; number : Z }.

(** A job: [{"name": "test-job", "builds": [...]}]; the key [builds]
    may be absent. *)
Record job := Job { name : string; builds : option (list build) }.

(** The response [{"status": 200, "json": {"jobs": [...]}}]; the key
    [jobs] of the body may be absent. *)
Record api_response := ApiResponse {
  status : Z;
  jobs : option (list job)
}.

(** The list [active_builds] after the two nested loops. *)
Definition active_builds (api_response : api_response) : list string :=
  foldl (λ active job,
           foldl (λ active build,
                    if default false (building build) then
                      active ++ [name job +:+ "#" +:+ pretty (number build)]
                    else active)
                 active (default [] (builds job)))
        [] (default [] (jobs api_response)).

(** [check_active_builds(api_response)]. *)
Definition check_active_builds (api_response : api_response)
    : bool * string :=
  if negb (status api_response =? 200)%Z then (false, "API unavailable")
  else
    let active_builds := active_builds api_response in
    match active_builds with
    | _ :: _ => (false, "Active builds: " +:+ Str.join ", " active_builds)
    | [] => (true, "No active builds")
    end.

End Builds.

(** ** HAProxy configuration check ([test_configuration_validation]) *)

Module HaproxyConfig.

Definition required_sections : list string :=
  ["global"; "defaults"; "frontend"; "backend"].

(** [validate_haproxy_config(config_content)]. *)
Definition validate_haproxy_config (config_content : string)
    : bool * list string :=
  let issues :=
    foldl (λ issues section,
             if negb (Str.contains section config_content) then
               issues ++ ["Missing " +:+ section +:+ " section"]
             else issues)
          [] required_sections in
  let issues :=
    if negb (Str.contains "bind" config_content) then
      issues ++ ["Missing bind directive"]
    else issues in
  let issues :=
    if negb (Str.contains "server" config_content) then
      issues ++ ["Missing server definitions"]
    else issues in
  (Nat.eqb (length issues) 0, issues).

End HaproxyConfig.

(** ** Alerting thresholds ([test_alerting_thresholds]) *)

Module Alerts.

Record metrics := Metrics {
  error_rate : Q;
  response_time_avg : Z;
  active_connections : Z
}.

Record thresholds := Thresholds {
  max_error_rate : Q;
  max_response_time : Z;
  max_connections : Z
}.

(** [check_alert_conditions(metrics, thresholds)]. *)
Definition check_alert_conditions (metrics : metrics)
    (thresholds : thresholds) : list string :=
  let alerts := [] in
  let alerts :=
    if Num.Qltb (max_error_rate thresholds) (error_rate metrics) then
      alerts ++ ["High error rate: " +:+
                 Num.format_percent (error_rate metrics) +:+ " > " +:+
                 Num.format_percent (max_error_rate thresholds)]
    else alerts in
  let alerts :=
    if (max_response_time thresholds <? response_time_avg metrics)%Z then
      alerts ++ ["High response time: " +:+
                 pretty (response_time_avg metrics) +:+ "ms > " +:+
                 pretty (max_response_time thresholds) +:+ "ms"]
    else alerts in
  let alerts :=
    if (max_connections thresholds <? active_connections metrics)%Z then
      alerts ++ ["High connection count: " +:+
                 pretty (active_connections metrics) +:+ " > " +:+
                 pretty (max_connections thresholds)]
    else alerts in
  alerts.

End Alerts.

(** ** State recovery from a backup ([test_state_recovery_from_backup]) *)

Module StateRecovery.
Import TeamConfig.

(** The exceptions met by [recover_from_backup].  In Python
    [json.JSONDecodeError] is a subclass of [ValueError]. *)
Inductive error :=
| JSONDecodeError (text : string)
| ValueError (text : string)
| TypeError
| OSError (text : string).

(** [str(e)]; a [TypeError] is never formatted by this code. *)
Definition error_text (e : error) : string :=
  match e with
  | JSONDecodeError text | ValueError text | OSError text => text
  | TypeError => "TypeError"
  end.

(** The files are a map from paths to what [json.load] makes of each:
    a value, the JSON numbers being integers, or a text it rejects. *)

(** What a call does: it returns a pair, or an exception escapes. *)
Inductive outcome :=
| Returns (success : bool) (msg : string)
| Raises (e : error).

(** What the environment decides during one run. *)
Record recovery_io := RecoveryIo {
  state_read : io_outcome;
  backup_read : io_outcome;
  state_write : write_outcome
}.

(** [with open(path, 'r') as f: json.load(f)]. *)
Definition load (read : io_outcome) (path : string) (fs : gmap string content)
    : error + yaml :=
  match read, fs !! path with
  | IoFails text, _ => inl (OSError text)
  | IoOk, None =>
      inl (OSError ("[Errno 2] No such file or directory: '"
                    +:+ path +:+ "'"))
  | IoOk, Some (Garbled _ parse_error) => inl (JSONDecodeError parse_error)
  | IoOk, Some (Document doc) => inr doc
  end.

(** [with open(path, 'w') as f: json.dump(value, f)]. *)
Definition dump (write : write_outcome) (value : yaml) (path : string)
    (fs : gmap string content) : option error * gmap string content :=
  match write with
  | Written => (None, <[path := Document value]> fs)
  | WriteFails text None => (Some (OSError text), fs)
  | WriteFails text (Some damaged) =>
      (Some (OSError text), <[path := damaged]> fs)
  end.

(** The body of the outer [try]. *)
Definition check_state (io : recovery_io) (state_path : string)
    (fs : gmap string content) : error + (bool * string) :=
  match load (state_read io) state_path fs with
  | inl e => inl e
  | inr state =>
      match has_key "teams" state with
      | Raised _ => inl TypeError
      | Returned present =>
          if negb present then inl (ValueError "Invalid state structure")
          else inr (true, "Current state is valid")
      end
  end.

(** The handler of the outer [try], with its own [try]. *)
Definition restore (io : recovery_io) (state_path backup_path : string)
    (fs : gmap string content) : outcome * gmap string content :=
  match load (backup_read io) backup_path fs with
  | inl e => (Returns false ("Recovery failed: " +:+ error_text e), fs)
  | inr backup_state =>
      match dump (state_write io) backup_state state_path fs with
      | (None, fs') => (Returns true "Recovered from backup", fs')
      | (Some e, fs') =>
          (Returns false ("Recovery failed: " +:+ error_text e), fs')
      end
  end.

(** [recover_from_backup(state_path, backup_path)]: the handler
    catches [json.JSONDecodeError] and [ValueError] only. *)
Definition recover_from_backup (io : recovery_io)
    (state_path backup_path : string) (fs : gmap string content) : outcome * gmap string content :=
  match check_state io state_path fs with
  | inr (success, msg) => (Returns success msg, fs)
  | inl (JSONDecodeError _) | inl (ValueError _) =>
      restore io state_path backup_path fs
  | inl e => (Raises e, fs)
  end.

End StateRecovery.

(** * Properties *)

(** ** Strings *)

Lemma prefix_empty (s : string) : String.prefix "" s = true.
Proof. by destruct s. Qed.

Lemma prefix_app_r (p s t : string) :
  String.prefix p s = true → String.prefix p (s +:+ t) = true.
Proof.
  revert s; induction p as [|a p IH]; intros s.
  { intros _. apply prefix_empty. }
  destruct s as [|b s]; simpl; [done|].
  destruct (Ascii.ascii_dec a b); [apply IH | done].
Qed.

Lemma contains_app_r (sub s t : string) :
  Str.contains sub s = true → Str.contains sub (s +:+ t) = true.
Proof.
  induction s as [|c s IH]; simpl.
  - rewrite orb_false_r. destruct sub; [|done].
    intros _. by destruct t.
  - intros [Hp|Hc]%orb_true_iff; apply orb_true_iff.
    + left. by apply (prefix_app_r sub (String c s) t).
    + right. by apply IH.
Qed.

Lemma contains_app_l (sub s t : string) :
  Str.contains sub t = true → Str.contains sub (s +:+ t) = true.
Proof.
  intros H. induction s as [|c s IH]; simpl; [done|].
  apply orb_true_iff. by right.
Qed.

(** ** Rationals *)

Lemma Qltb_lt (x y : Q) : Num.Qltb x y = true ↔ (x < y)%Q.
Proof.
  unfold Num.Qltb. rewrite negb_true_iff, <- not_true_iff_false, Qle_bool_iff.
  split; [apply Qnot_le_lt | apply Qlt_not_le].
Qed.

Lemma Qltb_ge (x y : Q) : Num.Qltb x y = false ↔ (y <= x)%Q.
Proof.
  unfold Num.Qltb. by rewrite negb_false_iff, Qle_bool_iff.
Qed.

(** ** Circuit breaker *)

Section circuit_breaker.
Import CircuitBreaker.

Lemma update_success (t_fail t_open : Q) (st : cb_state) :
  update_circuit_breaker t_fail t_open st false
  = CbState "closed" 0 (last_failure_time st) 0.
Proof. reflexivity. Qed.

Lemma update_failure_below (t_fail t_open : Q) (st : cb_state) :
  (failure_count st + 1 < 3)%Z →
  update_circuit_breaker t_fail t_open st true
  = CbState (state st) (failure_count st + 1) (Some t_fail)
            (cooldown_until st).
Proof.
  intros Hlt. unfold update_circuit_breaker; simpl.
  destruct (Z.leb_spec 3 (failure_count st + 1)); [lia | done].
Qed.

Lemma update_failure_reached (t_fail t_open : Q) (st : cb_state) :
  (3 ≤ failure_count st + 1)%Z →
  update_circuit_breaker t_fail t_open st true
  = CbState "open" (failure_count st + 1) (Some t_fail) (t_open + 1800)%Q.
Proof.
  intros Hge. unfold update_circuit_breaker; simpl.
  destruct (Z.leb_spec 3 (failure_count st + 1)); [done | lia].
Qed.

(** Every failure report adds one to the counter, whatever the state. *)
Lemma report_failures_count (readings : list (Q * Q)) (st : cb_state) :
  failure_count (report_failures readings st)
  = (failure_count st + Z.of_nat (length readings))%Z.
Proof.
  revert st; induction readings as [|r rs IH]; intros st; simpl.
  - lia.
  - unfold report_failures in *; simpl. rewrite IH.
    unfold update_circuit_breaker; simpl.
    destruct (3 <=? failure_count st + 1)%Z; simpl; lia.
Qed.

(** Below the threshold a run of failures leaves the state name as it
    was. *)
Lemma report_failures_below (readings : list (Q * Q)) (st : cb_state) :
  (failure_count st + Z.of_nat (length readings) < 3)%Z →
  state (report_failures readings st) = state st.
Proof.
  revert st; induction readings as [|r rs IH]; intros st Hlt; [done|].
  simpl in Hlt. unfold report_failures in *; cbn [foldl fst snd].
  rewrite update_failure_below by lia.
  rewrite IH; simpl; [done | lia].
Qed.

End circuit_breaker.

(** C1.  From a closed breaker with [failure_count = 0]: one or two
    consecutive failure reports leave it closed, the third one opens it
    and sets [cooldown_until] to the clock reading of that report plus
    1800 seconds; a success report, from any state, sets [failure_count]
    to 0, [state] to closed and [cooldown_until] to 0. *)
Theorem breaker_opens_after_three_failures
    (st : CircuitBreaker.cb_state) (r1 r2 r3 : Q * Q) :
  CircuitBreaker.state st = "closed" →
  CircuitBreaker.failure_count st = 0%Z →
  (∀ readings, (length readings < 3)%nat →
     CircuitBreaker.state (CircuitBreaker.report_failures readings st)
     = "closed")
  ∧ (let st3 := CircuitBreaker.report_failures [r1; r2; r3] st in
     CircuitBreaker.state st3 = "open"
     ∧ CircuitBreaker.failure_count st3 = 3%Z
     ∧ CircuitBreaker.cooldown_until st3 = (r3.2 + 1800)%Q)
  ∧ (∀ (any : CircuitBreaker.cb_state) (t_fail t_open : Q),
       let st' :=
         CircuitBreaker.update_circuit_breaker t_fail t_open any false in
       CircuitBreaker.failure_count st' = 0%Z
       ∧ CircuitBreaker.state st' = "closed"
       ∧ CircuitBreaker.cooldown_until st' = 0%Q).
Proof.
  intros Hclosed Hzero. split; [|split].
  - intros readings Hlen.
    rewrite report_failures_below; [done | lia].
  - unfold CircuitBreaker.report_failures; cbn [foldl fst snd].
    rewrite (update_failure_below _ _ st) by lia.
    rewrite (update_failure_below r2.1 r2.2) by (simpl; lia).
    rewrite update_failure_reached by (simpl; lia).
    simpl. repeat split. lia.
  - intros any t_fail t_open. by rewrite update_success.
Qed.

Lemma breaker_opens_after_three_failures_witness :
  CircuitBreaker.state
    (CircuitBreaker.report_failures [(100, 100); (200, 200); (300, 301)]%Q
       CircuitBreaker.initial_state) = "open"
  ∧ CircuitBreaker.cooldown_until
      (CircuitBreaker.report_failures [(100, 100); (200, 200); (300, 301)]%Q
         CircuitBreaker.initial_state) = (301 + 1800)%Q.
Proof.
  pose proof (breaker_opens_after_three_failures
                CircuitBreaker.initial_state
                (100, 100)%Q (200, 200)%Q (300, 301)%Q
                eq_refl eq_refl) as (_ & (Hopen & _ & Hcool) & _).
  exact (conj Hopen Hcool).
Defined.

(** C3.  An open breaker rejects a switch while [now < cooldown_until],
    with a reason containing "cooldown active" and without touching the
    stored state; once [cooldown_until <= now] it stores the state
    half-open and admits; a closed breaker always admits. *)
Theorem breaker_admission (now : Q) (file : CircuitBreaker.cb_state) :
  (CircuitBreaker.state file = "open" →
   (now < CircuitBreaker.cooldown_until file)%Q →
   ∃ reason,
     CircuitBreaker.can_execute_switch now file = ((false, reason), file)
     ∧ Str.contains "cooldown active" reason = true)
  ∧ (CircuitBreaker.state file = "open" →
     (CircuitBreaker.cooldown_until file <= now)%Q →
     ∃ reason file',
       CircuitBreaker.can_execute_switch now file = ((true, reason), file')
       ∧ CircuitBreaker.state file' = "half-open")
  ∧ (CircuitBreaker.state file = "closed" →
     ∃ reason,
       CircuitBreaker.can_execute_switch now file = ((true, reason), file)).
Proof.
  unfold CircuitBreaker.can_execute_switch. repeat split.
  - intros -> Hlt%Qltb_lt. simpl. rewrite Hlt. by eexists.
  - intros -> Hge%Qltb_ge. simpl. rewrite Hge. by do 2 eexists.
  - intros ->. simpl. by eexists.
Qed.

Lemma breaker_admission_witness :
  (∃ reason,
     CircuitBreaker.can_execute_switch 10
       (CircuitBreaker.CbState "open" 3 (Some 0%Q) 1800)
     = ((false, reason), CircuitBreaker.CbState "open" 3 (Some 0%Q) 1800)
     ∧ Str.contains "cooldown active" reason = true)
  ∧ (∃ reason file',
       CircuitBreaker.can_execute_switch 1800
         (CircuitBreaker.CbState "open" 3 (Some 0%Q) 1800)
       = ((true, reason), file')
       ∧ CircuitBreaker.state file' = "half-open")
  ∧ (∃ reason,
       CircuitBreaker.can_execute_switch 10 CircuitBreaker.initial_state
       = ((true, reason), CircuitBreaker.initial_state)).
Proof.
  split; [|split].
  - apply (breaker_admission 10
             (CircuitBreaker.CbState "open" 3 (Some 0%Q) 1800));
      [reflexivity | reflexivity].
  - apply (breaker_admission 1800
             (CircuitBreaker.CbState "open" 3 (Some 0%Q) 1800));
      [reflexivity | by vm_compute].
  - apply (breaker_admission 10 CircuitBreaker.initial_state).
    reflexivity.
Defined.

(** C10.  The recovery transition from open to half-open, in
    [attempt_recovery] as in [can_execute_switch], rewrites the state
    name only: [failure_count], [cooldown_until] and [last_failure_time]
    keep their values.  Hence a breaker that became half-open with
    [failure_count] at or above the threshold 3 is opened again by one
    further failure report. *)
Theorem recovery_keeps_failure_count
    (now : Q) (file : CircuitBreaker.cb_state) :
  CircuitBreaker.state file = "open" →
  (CircuitBreaker.cooldown_until file <= now)%Q →
  let half :=
    CircuitBreaker.CbState "half-open"
      (CircuitBreaker.failure_count file)
      (CircuitBreaker.last_failure_time file)
      (CircuitBreaker.cooldown_until file) in
  CircuitBreaker.attempt_recovery now file
  = ((true, "Transitioned to half-open state"), half)
  ∧ (CircuitBreaker.can_execute_switch now file).2 = half
  ∧ ((3 ≤ CircuitBreaker.failure_count file)%Z →
     ∀ t_fail t_open,
       CircuitBreaker.state
         (CircuitBreaker.update_circuit_breaker t_fail t_open half true)
       = "open").
Proof.
  intros Hopen Hcool half. repeat split.
  - unfold CircuitBreaker.attempt_recovery.
    apply Qle_bool_iff in Hcool. by rewrite Hopen, Hcool.
  - unfold CircuitBreaker.can_execute_switch.
    apply Qltb_ge in Hcool. by rewrite Hopen, Hcool.
  - intros Hthr t_fail t_open.
    rewrite update_failure_reached; [done | simpl; lia].
Qed.

Lemma recovery_keeps_failure_count_witness :
  CircuitBreaker.attempt_recovery 1000
    (CircuitBreaker.CbState "open" 5 None 940)
  = ((true, "Transitioned to half-open state"),
     CircuitBreaker.CbState "half-open" 5 None 940)
  ∧ CircuitBreaker.state
      (CircuitBreaker.update_circuit_breaker 1001 1001
         (CircuitBreaker.CbState "half-open" 5 None 940) true) = "open".
Proof.
  pose proof (recovery_keeps_failure_count 1000
                (CircuitBreaker.CbState "open" 5 None 940) eq_refl)
    as H.
  destruct H as (Hrec & _ & Hreopen); [by vm_compute|].
  split; [exact Hrec | apply Hreopen; simpl; lia].
Defined.

(** ** Rollback trigger *)

(** The condition list is the concatenation of the three independent
    contributions. *)
Lemma should_rollback_app (error_rate : Q) (response_time : Z)
    (availability : Q) :
  Rollback.should_rollback error_rate response_time availability
  = (if Num.Qltb 0.05 error_rate
     then ["High error rate: " +:+ Num.format_percent error_rate] else [])
    ++ (if (5000 <? response_time)%Z
        then ["High response time: " +:+ pretty response_time +:+ "ms"]
        else [])
    ++ (if Num.Qltb availability 0.95
        then ["Low availability: " +:+ Num.format_percent availability]
        else []).
Proof.
  unfold Rollback.should_rollback.
  by destruct (Num.Qltb 0.05 error_rate), (5000 <? response_time)%Z,
              (Num.Qltb availability 0.95).
Qed.

(** C4.  The trigger fires (the condition list is not empty) exactly when
    [error_rate > 0.05], [response_time > 5000] or [availability < 0.95];
    each breached condition puts its own reason in the list ("error
    rate", "response time", "availability"); with none breached the list
    is empty.  [(0.10, 200, 0.99)] fires citing "error rate",
    [(0.02, 200, 0.99)] does not fire. *)
Theorem rollback_trigger_conditions
    (error_rate : Q) (response_time : Z) (availability : Q) :
  let conditions :=
    Rollback.should_rollback error_rate response_time availability in
  (conditions ≠ [] ↔
     (0.05 < error_rate)%Q ∨ (5000 < response_time)%Z
     ∨ (availability < 0.95)%Q)
  ∧ ((0.05 < error_rate)%Q →
     ∃ c, c ∈ conditions ∧ Str.contains "error rate" c = true)
  ∧ ((5000 < response_time)%Z →
     ∃ c, c ∈ conditions ∧ Str.contains "response time" c = true)
  ∧ ((availability < 0.95)%Q →
     ∃ c, c ∈ conditions ∧ Str.contains "availability" c = true)
  ∧ (¬ (0.05 < error_rate)%Q → ¬ (5000 < response_time)%Z →
     ¬ (availability < 0.95)%Q → conditions = [])
  ∧ Rollback.should_rollback 0.10 200 0.99 = ["High error rate: 10.00%"]
  ∧ Rollback.should_rollback 0.02 200 0.99 = [].
Proof.
  intros conditions. subst conditions.
  rewrite should_rollback_app.
  pose proof (Qltb_lt 0.05 error_rate) as He.
  pose proof (Z.ltb_lt 5000 response_time) as Hr.
  pose proof (Qltb_lt availability 0.95) as Ha.
  split; [|split; [|split; [|split; [|split]]]].
  - rewrite <- He, <- Hr, <- Ha.
    destruct (Num.Qltb 0.05 error_rate), (5000 <? response_time)%Z,
             (Num.Qltb availability 0.95); simpl; split;
      solve [ intros _; auto | done | intros [?|[?|?]]; done ].
  - intros ->%He. eexists.
    split; [apply elem_of_app; left; apply list_elem_of_here|].
    by apply contains_app_r.
  - intros ->%Hr. eexists.
    split; [apply elem_of_app; right; apply elem_of_app; left;
            apply list_elem_of_here|].
    by apply contains_app_r.
  - intros ->%Ha. eexists.
    split; [do 2 (apply elem_of_app; right); apply list_elem_of_here|].
    by apply contains_app_r.
  - rewrite <- He, <- Hr, <- Ha. intros H1 H2 H3.
    destruct (Num.Qltb 0.05 error_rate), (5000 <? response_time)%Z,
             (Num.Qltb availability 0.95); done.
  - by vm_compute.
Qed.

Lemma rollback_trigger_conditions_witness :
  ∃ c, c ∈ Rollback.should_rollback 0.02 8000 0.99
       ∧ Str.contains "response time" c = true.
Proof.
  apply (rollback_trigger_conditions 0.02 8000 0.99). reflexivity.
Defined.

(** ** Rollback execution *)

(** C5.  For a team present in the state with a blue or green active
    environment, [execute_rollback] reports success and rewrites the
    team's entry: the active environment becomes the opposite one, the
    switch count grows by exactly 1, the rollback reason is the given
    one and the rollback time is set; other teams are untouched.  For a
    team absent from the state it reports failure and leaves the state
    as it was. *)
Theorem rollback_execution
    (state : Rollback.bg_state) (team_name reason : string) :
  (∀ team,
     Rollback.teams state !! team_name = Some team →
     Rollback.active_environment team = "blue"
     ∨ Rollback.active_environment team = "green" →
     ∃ msg team',
       Rollback.execute_rollback team_name reason state
       = ((true, msg),
          Rollback.BgState (<[team_name := team']> (Rollback.teams state)))
       ∧ (Rollback.active_environment team = "blue" →
          Rollback.active_environment team' = "green")
       ∧ (Rollback.active_environment team = "green" →
          Rollback.active_environment team' = "blue")
       ∧ Rollback.switch_count team'
         = (Rollback.switch_count team + 1)%Z
       ∧ Rollback.last_rollback_reason team' = Some reason
       ∧ is_Some (Rollback.last_rollback_time team')
       ∧ Rollback.last_switch_time team' = Rollback.last_switch_time team)
  ∧ (Rollback.teams state !! team_name = None →
     ∃ msg,
       Rollback.execute_rollback team_name reason state
       = ((false, msg), state)).
Proof.
  unfold Rollback.execute_rollback. split.
  - intros team -> Henv. do 2 eexists. split; [reflexivity|]. simpl.
    repeat split; try done.
    + by intros ->.
    + by intros ->.
  - intros ->. by eexists.
Qed.

Lemma rollback_execution_witness :
  ∃ msg team',
    Rollback.execute_rollback "devops" "High error rate detected"
      (Rollback.BgState
         {[ "devops" :=
              Rollback.TeamState "blue" "2024-01-01T00:00:00Z" 0 None None ]})
    = ((true, msg),
       Rollback.BgState
         (<["devops" := team']>
            {[ "devops" :=
                 Rollback.TeamState "blue" "2024-01-01T00:00:00Z" 0
                   None None ]}))
    ∧ Rollback.active_environment team' = "green"
    ∧ Rollback.switch_count team' = 1%Z.
Proof.
  destruct (rollback_execution
              (Rollback.BgState
                 {[ "devops" :=
                      Rollback.TeamState "blue" "2024-01-01T00:00:00Z" 0
                        None None ]})
              "devops" "High error rate detected") as [Hpresent _].
  destruct (Hpresent
              (Rollback.TeamState "blue" "2024-01-01T00:00:00Z" 0 None None)
              eq_refl (or_introl eq_refl))
    as (msg & team' & Hrun & Hblue & _ & Hcount & _).
  exists msg, team'. split; [exact Hrun|].
  split; [exact (Hblue eq_refl) | exact Hcount].
Defined.

(** ** Resource-availability check *)

Lemma resource_issues_app (cpu_usage memory_usage : Z)
    (th : Validator.thresholds) :
  Validator.resource_issues cpu_usage memory_usage th
  = (if (Validator.cpu th <? cpu_usage)%Z
     then ["CPU usage too high: " +:+ pretty cpu_usage +:+
           "% (max: " +:+ pretty (Validator.cpu th) +:+ "%)"]
     else [])
    ++ (if (Validator.memory th <? memory_usage)%Z
        then ["Memory usage too high: " +:+ pretty memory_usage +:+
              "% (max: " +:+ pretty (Validator.memory th) +:+ "%)"]
        else []).
Proof.
  unfold Validator.resource_issues.
  by destruct (Validator.cpu th <? cpu_usage)%Z,
              (Validator.memory th <? memory_usage)%Z.
Qed.

(** C6, as stated, fails at the thresholds themselves: CPU at 80% and
    memory at 85% pass the check although neither is below its
    threshold. *)
Lemma resource_check_admits_threshold :
  ¬ (∀ cpu_usage memory_usage : Z,
       (Validator.check_resource_availability cpu_usage memory_usage None).1
       = true
       ↔ (cpu_usage < 80)%Z ∧ (memory_usage < 85)%Z).
Proof.
  intros Hclaim.
  destruct (Hclaim 80%Z 85%Z) as [Hpass _].
  destruct (Hpass eq_refl) as [Hcpu _]. lia.
Qed.

(** C6, amended.  The check passes exactly when CPU utilization is at
    most the CPU threshold (default 80) and memory utilization is at
    most the memory threshold (default 85).  The two tests are
    independent: each violation contributes its own reason naming the
    actual and the maximum value, both reasons are reported (joined by
    "; ") when both are violated, and the verdict is true if and only if
    the reason list is empty. *)
Theorem resource_check_verdict
    (cpu_usage memory_usage : Z) (thresholds : option Validator.thresholds) :
  let th := default Validator.default_thresholds thresholds in
  let issues := Validator.resource_issues cpu_usage memory_usage th in
  let cpu_reason :=
    "CPU usage too high: " +:+ pretty cpu_usage +:+
    "% (max: " +:+ pretty (Validator.cpu th) +:+ "%)" in
  let memory_reason :=
    "Memory usage too high: " +:+ pretty memory_usage +:+
    "% (max: " +:+ pretty (Validator.memory th) +:+ "%)" in
  let result :=
    Validator.check_resource_availability cpu_usage memory_usage thresholds in
  Validator.default_thresholds = Validator.Thresholds 80 85
  ∧ (result.1 = true ↔
       (cpu_usage ≤ Validator.cpu th)%Z
       ∧ (memory_usage ≤ Validator.memory th)%Z)
  ∧ (cpu_reason ∈ issues ↔ (Validator.cpu th < cpu_usage)%Z)
  ∧ (memory_reason ∈ issues ↔ (Validator.memory th < memory_usage)%Z)
  ∧ ((Validator.cpu th < cpu_usage)%Z →
     (Validator.memory th < memory_usage)%Z →
     result = (false, cpu_reason +:+ "; " +:+ memory_reason))
  ∧ (result.1 = true ↔ issues = [])
  ∧ (result.1 = false → result.2 = Str.join "; " issues).
Proof.
  intros th issues cpu_reason memory_reason result.
  subst result issues. unfold Validator.check_resource_availability.
  fold th. rewrite resource_issues_app.
  fold cpu_reason memory_reason.
  assert (cpu_reason ≠ memory_reason) as Hne by done.
  destruct (Z.ltb_spec (Validator.cpu th) cpu_usage) as [Hc|Hc],
           (Z.ltb_spec (Validator.memory th) memory_usage) as [Hm|Hm];
    simpl; (split; [done|]);
    repeat split; try done; try lia;
    solve [ intros _; repeat constructor
          | intros Hin%list_elem_of_singleton; done
          | intros Hin%elem_of_nil; done ].
Qed.

Lemma resource_check_verdict_witness :
  Validator.check_resource_availability 90 95 None
  = (false,
     "CPU usage too high: 90% (max: 80%); Memory usage too high: 95% (max: 85%)").
Proof.
  apply (resource_check_verdict 90 95 None); reflexivity.
Defined.

(** ** Routing generation *)

(** A dict filled by one assignment per list element, as both routing
    generators do. *)
Section fill_by_key.
Context {A V : Type} (key : A → string) (val : A → V).

Lemma fill_lookup_absent (l : list A) (k : string) :
  k ∉ key <$> l →
  foldl (λ m x, <[key x := val x]> m) (∅ : gmap string V) l !! k = None.
Proof.
  induction l as [|x l IH] using rev_ind; intros Hk; [done|].
  rewrite fmap_app, elem_of_app in Hk. simpl in Hk.
  rewrite foldl_snoc, lookup_insert_ne.
  - apply IH. tauto.
  - intros <-. apply Hk. right. apply list_elem_of_here.
Qed.

Lemma fill_lookup_present (l : list A) (x : A) :
  NoDup (key <$> l) → x ∈ l →
  foldl (λ m x, <[key x := val x]> m) (∅ : gmap string V) l !! key x
  = Some (val x).
Proof.
  induction l as [|y l IH] using rev_ind; intros Hnd Hx.
  { by apply elem_of_nil in Hx. }
  rewrite fmap_app in Hnd. apply NoDup_app in Hnd as (Hl & Hfresh & _).
  rewrite foldl_snoc.
  apply elem_of_app in Hx as [Hx|Hx%list_elem_of_singleton].
  - rewrite lookup_insert_ne; [by apply IH|].
    intros Heq. apply (Hfresh (key x)).
    + by apply list_elem_of_fmap_2.
    + rewrite <- Heq. apply list_elem_of_here.
  - subst y. apply lookup_insert_eq.
Qed.

Lemma fill_permutation (l l' : list A) :
  NoDup (key <$> l) → l ≡ₚ l' →
  foldl (λ m x, <[key x := val x]> m) (∅ : gmap string V) l
  = foldl (λ m x, <[key x := val x]> m) ∅ l'.
Proof.
  intros Hnd Hperm. apply map_eq. intros k.
  assert (NoDup (key <$> l')) as Hnd' by by rewrite <- Hperm.
  destruct (decide (k ∈ key <$> l)) as [Hin|Hout].
  - apply list_elem_of_fmap in Hin as (x & -> & Hx).
    rewrite !fill_lookup_present; try done. by rewrite <- Hperm.
  - rewrite !fill_lookup_absent; try done. by rewrite <- Hperm.
Qed.

End fill_by_key.

(** C7.  For team records with pairwise distinct names, the routing
    produced does not depend on the order in which the records are
    presented (nor, for [update_haproxy_routing], on its first argument):
    the same set of team states yields the same routing.  For every team
    whose active environment is blue or green the generated entry has
    primary server [jenkins-<team>-<active_environment>], backup server
    [jenkins-<team>-<other environment>], and an ACL and a health check
    built on the team name. *)
Theorem routing_generation_pure (teams : list Routing.team) :
  NoDup (Routing.team_name <$> teams) →
  (∀ teams', teams ≡ₚ teams' →
     Routing.configure_team_routing teams'
     = Routing.configure_team_routing teams
     ∧ ∀ env env',
         Routing.update_haproxy_routing env' teams'
         = Routing.update_haproxy_routing env teams)
  ∧ (∀ team, team ∈ teams →
       ∀ other,
         (Routing.active_environment team = "blue" ∧ other = "green")
         ∨ (Routing.active_environment team = "green" ∧ other = "blue") →
         let name := Routing.team_name team in
         (∃ route,
            Routing.configure_team_routing teams !! name = Some route
            ∧ Routing.primary_server route
              = "jenkins-" +:+ name +:+ "-" +:+
                Routing.active_environment team
            ∧ Routing.backup_server route
              = "jenkins-" +:+ name +:+ "-" +:+ other
            ∧ Routing.acl route = "path_beg /" +:+ name +:+ "/"
            ∧ Routing.health_check route
              = "httpchk GET /" +:+ name +:+ "/login")
         ∧ (∃ route,
              Routing.backends (Routing.update_haproxy_routing "blue" teams)
                !! name = Some route
              ∧ Routing.primary route
                = "jenkins-" +:+ name +:+ "-" +:+
                  Routing.active_environment team
              ∧ Routing.backup route
                = "jenkins-" +:+ name +:+ "-" +:+ other)).
Proof.
  intros Hnd. split.
  - intros teams' Hperm. split.
    + unfold Routing.configure_team_routing. symmetry.
      by apply (fill_permutation Routing.team_name).
    + intros env env'. unfold Routing.update_haproxy_routing. f_equal.
      symmetry. by apply (fill_permutation Routing.team_name).
  - intros team Hin other Hother name. split.
    + eexists. split.
      * unfold Routing.configure_team_routing.
        by apply (fill_lookup_present Routing.team_name).
      * simpl. by destruct Hother as [[-> ->]|[-> ->]].
    + eexists. split.
      * unfold Routing.update_haproxy_routing; simpl.
        by apply (fill_lookup_present Routing.team_name).
      * simpl. by destruct Hother as [[-> ->]|[-> ->]].
Qed.

Lemma routing_generation_pure_witness :
  Routing.configure_team_routing
    [Routing.Team "qa" "green"; Routing.Team "devops" "blue"]
  = Routing.configure_team_routing
      [Routing.Team "devops" "blue"; Routing.Team "qa" "green"]
  ∧ ∃ route,
      Routing.configure_team_routing
        [Routing.Team "devops" "blue"; Routing.Team "qa" "green"] !! "qa"
      = Some route
      ∧ Routing.primary_server route = "jenkins-qa-green"
      ∧ Routing.backup_server route = "jenkins-qa-blue".
Proof.
  assert (NoDup (Routing.team_name <$>
                   [Routing.Team "devops" "blue"; Routing.Team "qa" "green"]))
    as Hnd.
  { simpl. apply NoDup_cons. split.
    - intros Hin%list_elem_of_singleton. discriminate Hin.
    - apply NoDup_singleton. }
  destruct (routing_generation_pure
              [Routing.Team "devops" "blue"; Routing.Team "qa" "green"] Hnd)
    as [Horder Hentry].
  split.
  - apply (Horder [Routing.Team "qa" "green"; Routing.Team "devops" "blue"]).
    apply Permutation_swap.
  - destruct (Hentry (Routing.Team "qa" "green")
                (list_elem_of_further _ _ _ (list_elem_of_here _ _))
                "blue" (or_intror (conj eq_refl eq_refl)))
      as [(route & Hlook & Hprim & Hback & _) _].
    exists route. split; [exact Hlook|]. split; [exact Hprim | exact Hback].
Defined.

(** ** The operator script *)

Lemma string_length_app (a b : string) :
  String.length (a +:+ b) = String.length a + String.length b.
Proof. induction a as [|c a IH]; simpl; [done | by rewrite IH]. Qed.

Lemma string_app_ne_self (a b : string) : b ≠ "" → a +:+ b ≠ a.
Proof.
  intros Hb Heq. apply (f_equal String.length) in Heq.
  rewrite string_length_app in Heq. destruct b; [done | simpl in Heq; lia].
Qed.

Lemma backup_path_fresh (config_path timestamp : string) :
  config_path +:+ ".backup_" +:+ timestamp ≠ config_path.
Proof. by apply string_app_ne_self. Qed.

Section script.
Import TeamConfig.

(** The loop finds a record only at an index at or after its start,
    and the record found names the team. *)
Lemma find_team_from_found (teams : list yaml) :
  ∀ (j : Z) (team_name : string) (team_config : gmap string yaml) (i : Z),
    find_team_from j teams team_name = Returned (Some team_config, i) →
    (j ≤ i)%Z
    ∧ teams !! Z.to_nat (i - j) = Some (YDict team_config)
    ∧ eq_str (default YNull (team_config !! "team_name")) team_name = true.
Proof.
  induction teams as [|t teams IH]; intros j team_name team_config i Hfind;
    [done|].
  simpl in Hfind. destruct t as [| | | | |entries]; try done.
  destruct (eq_str (default YNull (entries !! "team_name")) team_name)
    eqn:Hname.
  - injection Hfind as -> ->. rewrite Z.sub_diag. by repeat split; try lia.
  - apply IH in Hfind as (Hle & Hlook & Hfound).
    split; [lia|]. split; [|done].
    replace (Z.to_nat (i - j)) with (S (Z.to_nat (i - (j + 1)))) by lia.
    done.
Qed.

(** Rewriting the record found, without touching its [team_name], does
    not move it. *)
Lemma find_team_from_assign (teams : list yaml) :
  ∀ (j : Z) (team_name : string) (team_config new_config : gmap string yaml)
    (i : Z),
    find_team_from j teams team_name = Returned (Some team_config, i) →
    new_config !! "team_name" = team_config !! "team_name" →
    find_team_from j (<[Z.to_nat (i - j) := YDict new_config]> teams)
      team_name
    = Returned (Some new_config, i).
Proof.
  induction teams as [|t teams IH];
    intros j team_name team_config new_config i Hfind Hsame; [done|].
  simpl in Hfind. destruct t as [| | | | |entries]; try done.
  destruct (eq_str (default YNull (entries !! "team_name")) team_name)
    eqn:Hname.
  - injection Hfind as -> ->. rewrite Z.sub_diag. simpl.
    by rewrite Hsame, Hname.
  - pose proof (find_team_from_found _ _ _ _ _ Hfind) as (Hle & _ & _).
    replace (Z.to_nat (i - j)) with (S (Z.to_nat (i - (j + 1)))) by lia.
    simpl. rewrite Hname. by eapply IH.
Qed.



Lemma validate_environment_run (environment : string) (w : world) :
  validate_environment environment w
  = if bool_decide (environment ∈ ["blue"; "green"]) then (Returned true, w)
    else (Returned false,
          World (files w)
            (console w ++
             [LogError (Plain ("Invalid environment: " +:+ environment +:+
                               ". Must be 'blue' or 'green'"))])).
Proof. unfold validate_environment. by case_bool_decide. Qed.

Lemma backup_config_file_run (timestamp : string) (copy : copy_outcome)
    (config_path : string) (w : world) :
  let backup_path := config_path +:+ ".backup_" +:+ timestamp in
  let failed text files :=
    (Returned None,
     World files
       (console w ++
        [LogError (Plain ("Failed to create backup: " +:+ text))])) in
  let missing :=
    "[Errno 2] No such file or directory: '" +:+ config_path +:+ "'" in
  backup_config_file timestamp copy config_path w
  = match copy, files w !! config_path with
    | Copied, Some c =>
        (Returned (Some backup_path),
         World (<[backup_path := c]> (files w))
           (console w ++
            [LogInfo (Plain ("Created backup: " +:+ backup_path))]))
    | Copied, None => failed missing (files w)
    | CopyFails text None, _ => failed text (files w)
    | CopyFails text (Some damaged), Some _ =>
        failed text (<[backup_path := damaged]> (files w))
    | CopyFails text (Some damaged), None => failed missing (files w)
    end.
Proof.
  unfold backup_config_file, try_except, copy2, read_file, store, log_info,
    log_error, emit, raise, mbind, M_bind, bind, mret, M_ret, ret.
  by destruct copy as [|text [damaged|]], (files w !! config_path).
Qed.

Lemma load_yaml_config_run (read : io_outcome) (config_path : string)
    (w : world) :
  load_yaml_config read config_path w
  = match read, files w !! config_path with
    | IoOk, Some (Document doc) => (Returned doc, w)
    | IoOk, Some (Garbled _ parse_error) =>
        (Returned YNull,
         World (files w)
           (console w ++
            [LogError (Plain ("Failed to load config " +:+ config_path +:+
                              ": " +:+ parse_error))]))
    | IoOk, None =>
        (Returned YNull,
         World (files w)
           (console w ++
            [LogError (Plain ("Failed to load config " +:+ config_path +:+
                              ": " +:+
                              "[Errno 2] No such file or directory: '" +:+
                              config_path +:+ "'"))]))
    | IoFails text, _ =>
        (Returned YNull,
         World (files w)
           (console w ++
            [LogError (Plain ("Failed to load config " +:+ config_path +:+
                              ": " +:+ text))]))
    end.
Proof.
  unfold load_yaml_config, try_except, read_file, safe_load, log_error,
    emit, mbind, M_bind, bind, ret, raise.
  by destruct read, (files w !! config_path) as [[]|].
Qed.

Lemma save_yaml_config_run (write : write_outcome) (config : yaml)
    (config_path : string) (w : world) :
  save_yaml_config write config config_path w
  = match write with
    | Written =>
        (Returned true,
         World (<[config_path := Document config]> (files w)) (console w))
    | WriteFails text damage =>
        (Returned false,
         World (match damage with
                | Some damaged => <[config_path := damaged]> (files w)
                | None => files w
                end)
           (console w ++
            [LogError (Plain ("Failed to save config " +:+ config_path +:+
                              ": " +:+ text))]))
    end.
Proof.
  unfold save_yaml_config, try_except, write_yaml, log_error, emit, mbind,
    M_bind, bind, ret.
  by destruct write as [|text [damaged|]].
Qed.

(** On a configuration that is a mapping holding a list of teams, the
    search is the loop itself. *)
Lemma find_team_in_config_list (entries : gmap string yaml)
    (teams : list yaml) (team_name : string) (w : world) :
  entries !! "jenkins_teams_config" = Some (YList teams) →
  find_team_in_config (YDict entries) team_name w
  = (find_team_from 0 teams team_name, w).
Proof.
  intros Hteams. unfold find_team_in_config, mbind, M_bind, bind, lift.
  simpl. rewrite Hteams. simpl. by destruct (find_team_from _ _ _).
Qed.

Lemma find_team_in_config_no_key (entries : gmap string yaml)
    (team_name : string) (w : world) :
  entries !! "jenkins_teams_config" = None →
  find_team_in_config (YDict entries) team_name w
  = (Returned (None, (-1)%Z),
     World (files w)
       (console w ++
        [LogError (Plain "jenkins_teams_config not found in configuration")])).
Proof.
  intros Hteams. unfold find_team_in_config, mbind, M_bind, bind, lift.
  simpl. by rewrite Hteams.
Qed.


(** A loop over strings (the keys of a dict, the characters of a
    string) returns no record. *)
Lemma find_team_from_strings {A} (f : A → string) (l : list A) (j : Z)
    (team_name : string) (team_config : gmap string yaml) (i : Z) :
  find_team_from j ((λ x, YStr (f x)) <$> l) team_name
  ≠ Returned (Some team_config, i).
Proof. by destruct l. Qed.

(** The search never touches the files, and a record it returns comes
    from the loop over the team list. *)
Lemma find_team_in_config_spec (config : yaml) (team_name : string)
    (w w' : world) (r : result (option (gmap string yaml) * Z)) :
  find_team_in_config config team_name w = (r, w') →
  files w' = files w
  ∧ ∀ team_config i,
      r = Returned (Some team_config, i) →
      ∃ entries teams,
        config = YDict entries
        ∧ entries !! "jenkins_teams_config" = Some (YList teams)
        ∧ find_team_from 0 teams team_name = Returned (Some team_config, i).
Proof.
  unfold find_team_in_config, mbind, M_bind, bind, lift, log_error, emit,
    mret, M_ret, ret.
  destruct config as [| | |s|items|entries]; simpl;
    try (intros [= <- <-]; by split).
  - destruct (Str.contains _ s); simpl; intros [= <- <-]; by split.
  - destruct (existsb _ items); simpl; intros [= <- <-]; by split.
  - destruct (entries !! "jenkins_teams_config") as [teams|] eqn:Hteams;
      simpl; [|intros [= <- <-]; by split].
    destruct teams as [| | |s|items|keys]; simpl;
      try (intros [= <- <-]; by split).
    + intros [= <- <-]. split; [done|]. intros team_config i Hfound.
      by apply (find_team_from_strings (λ c, String c EmptyString)) in Hfound.
    + intros [= <- <-]. split; [done|]. intros team_config i Hfound.
      by exists entries, items.
    + intros [= <- <-]. split; [done|]. intros team_config i Hfound.
      rewrite <- list_fmap_compose in Hfound.
      by apply (find_team_from_strings fst) in Hfound.
Qed.

Lemma insert_size_nonzero {V} (k : string) (v : V) (m : gmap string V) :
  Nat.eqb (size (<[k := v]> m)) 0 = false.
Proof.
  apply Nat.eqb_neq. intros Hsize%map_size_empty_iff.
  by apply insert_non_empty in Hsize.
Qed.


(** The run up to the search for the team, when nothing fails before
    it: the world in which the search starts. *)
Lemma update_reaches_search (io : update_io)
    (team_name new_environment config_path : string) (w : world)
    (entries : gmap string yaml) (teams : list yaml)
    (found : option (gmap string yaml)) (i : Z) :
  new_environment ∈ ["blue"; "green"] →
  files w !! config_path = Some (Document (YDict entries)) →
  backup_copy io = Copied →
  load_read io = IoOk →
  entries !! "jenkins_teams_config" = None ∧ found = None
  ∨ entries !! "jenkins_teams_config" = Some (YList teams)
    ∧ find_team_from 0 teams team_name = Returned (found, i) →
  let run :=
    update_team_environment io team_name new_environment config_path w in
  match found with
  | None => run.1 = Returned false
  | Some team_config =>
      let current :=
        default (YStr "blue") (team_config !! "active_environment") in
      if eq_str current new_environment then
        run.1 = Returned true
        ∧ files run.2 !! config_path = files w !! config_path
        ∧ LogInfo (Plain ("Team '" +:+ team_name +:+
                          "' is already on environment '" +:+
                          new_environment +:+ "'")) ∈ console run.2
      else
        match save_write io with
        | Written => True
        | WriteFails _ _ => run.1 = Returned false
        end
  end.
Proof.
  intros Henv Hfile Hbackup Hload Hsearch run. subst run.
  unfold update_team_environment, mbind, M_bind, bind.
  rewrite validate_environment_run, bool_decide_eq_true_2 by done.
  simpl. rewrite Hfile. simpl.
  rewrite backup_config_file_run, Hfile, Hbackup. simpl.
  rewrite load_yaml_config_run, Hload. simpl.
  rewrite lookup_insert_ne, Hfile by apply backup_path_fresh.
  destruct Hsearch as [[Hkey ->]|[Hteams Hloop]].
  { by rewrite find_team_in_config_no_key. }
  rewrite (find_team_in_config_list _ teams), Hloop by done.
  destruct found as [team_config|]; simpl; [|done].
  destruct (eq_str _ new_environment) eqn:Hcurrent; simpl.
  { split; [done|]. split.
    - by rewrite lookup_insert_ne by apply backup_path_fresh.
    - apply elem_of_app. right. apply list_elem_of_here. }
  pose proof (find_team_from_found _ _ _ _ _ Hloop) as (_ & Hlook & _).
  rewrite Z.sub_0_r in Hlook. rewrite Hteams, Hlook.
  rewrite save_yaml_config_run.
  destruct (save_write io) as [|text damage]; [done|]. simpl.
  unfold try_except, copy2, read_file, store, log_info, log_error, emit,
    mbind, M_bind, bind, mret, M_ret, ret.
  by destruct (restore_copy io), damage as [damaged|]; simpl;
    repeat case_match.
Qed.





Lemma prefix_refl (s : string) : String.prefix s s = true.
Proof.
  induction s as [|c s IH]; simpl; [done|].
  by destruct (Ascii.ascii_dec c c).
Qed.

Lemma contains_refl (s : string) : Str.contains s s = true.
Proof. destruct s; [done|]. cbn [Str.contains]. by rewrite prefix_refl. Qed.

Lemma join_cons_cons (sep p q : string) (rest : list string) :
  Str.join sep (p :: q :: rest) = p +:+ sep +:+ Str.join sep (q :: rest).
Proof. reflexivity. Qed.

(** A name in the list is spelled out in the [repr] of the list. *)
Lemma repr_fields_names (fields : list string) (f : string) :
  f ∈ fields → Str.contains f (repr_fields fields) = true.
Proof.
  intros Hin. unfold repr_fields.
  apply (contains_app_l f "["), contains_app_r.
  induction fields as [|x rest IH]; [by apply elem_of_nil in Hin|].
  assert (Str.contains f ("'" +:+ f +:+ "'") = true) as Hquoted.
  { apply (contains_app_l f "'"), contains_app_r, contains_refl. }
  destruct rest as [|y rest].
  { by apply list_elem_of_singleton in Hin as ->. }
  rewrite !fmap_cons, join_cons_cons.
  apply elem_of_cons in Hin as [->|Hin].
  - by apply contains_app_r.
  - do 2 apply contains_app_l. by apply IH.
Qed.

Lemma missing_fields_spec (team_config : gmap string yaml) (f : string) :
  f ∈ missing_fields team_config
  ↔ f ∈ required_fields ∧ team_config !! f = None.
Proof.
  unfold missing_fields.
  rewrite !list_elem_of_In, filter_In, negb_true_iff, bool_decide_eq_false.
  by rewrite <- eq_None_not_Some.
Qed.

Lemma missing_fields_nil (team_config : gmap string yaml) :
  missing_fields team_config = []
  ↔ ∀ f, f ∈ required_fields → is_Some (team_config !! f).
Proof.
  split.
  - intros Hnil f Hf. destruct (team_config !! f) eqn:Hlook; [done|].
    assert (f ∈ missing_fields team_config) as Hin
      by by apply missing_fields_spec.
    rewrite Hnil in Hin. by apply elem_of_nil in Hin.
  - intros Hall. destruct (missing_fields team_config) as [|f rest] eqn:Hm;
      [done|].
    assert (f ∈ missing_fields team_config) as Hin
      by (rewrite Hm; apply list_elem_of_here).
    apply missing_fields_spec in Hin as [Hreq Hnone].
    apply Hall in Hreq as [v Hv]. congruence.
Qed.

(** The validation of a record that the search returns. *)
Lemma validate_found (config_path team_name : string) (w : world)
    (entries : gmap string yaml) (teams : list yaml)
    (team_config : gmap string yaml) (i : Z) :
  files w !! config_path = Some (Document (YDict entries)) →
  entries !! "jenkins_teams_config" = Some (YList teams) →
  find_team_from 0 teams team_name = Returned (Some team_config, i) →
  validate_team_configuration IoOk config_path team_name w
  = if negb (Nat.eqb (length (missing_fields team_config)) 0) then
      (Returned false,
       World (files w)
         (console w ++
          [LogError (Plain ("Team '" +:+ team_name +:+
                            "' missing required fields: " +:+
                            repr_fields (missing_fields team_config)))]))
    else if negb (truthy (default (YBool false)
                            (team_config !! "blue_green_enabled"))) then
      (Returned false,
       World (files w)
         (console w ++
          [LogError (Plain ("Team '" +:+ team_name +:+
                            "' does not have blue-green deployment enabled"))]))
    else
      (Returned true,
       World (files w)
         (console w ++
          [LogSuccess (Plain ("Team '" +:+ team_name +:+
                              "' configuration is valid"))])).
Proof.
  intros Hfile Hteams Hloop.
  unfold validate_team_configuration, mbind, M_bind, bind.
  rewrite load_yaml_config_run, Hfile.
  rewrite (find_team_in_config_list _ teams), Hloop by done.
  by destruct (negb (Nat.eqb (length (missing_fields team_config)) 0)),
    (negb (truthy (default (YBool false)
                     (team_config !! "blue_green_enabled")))).
Qed.

(** A successful validation found the team in a well-formed file. *)
Lemma validate_success_found (read : io_outcome)
    (config_path team_name : string) (w : world) :
  (validate_team_configuration read config_path team_name w).1
  = Returned true →
  ∃ entries teams team_config i,
    read = IoOk
    ∧ files w !! config_path = Some (Document (YDict entries))
    ∧ entries !! "jenkins_teams_config" = Some (YList teams)
    ∧ find_team_from 0 teams team_name = Returned (Some team_config, i).
Proof.
  unfold validate_team_configuration, mbind, M_bind, bind.
  rewrite load_yaml_config_run.
  destruct read; [|done].
  destruct (files w !! config_path) as [[config|raw err]|]; try done.
  destruct config as [| | |s|items|entries] eqn:Hconfig; cbv beta iota;
    [done|..].
  all: match goal with
       | |- context [find_team_in_config ?c ?t ?w0] =>
           destruct (find_team_in_config c t w0) as [found w1] eqn:Hfind
       end.
  all: apply find_team_in_config_spec in Hfind as [_ Hfound].
  all: destruct found as [[[team_config|] i]|e]; simpl; try done.
  all: destruct (Hfound team_config i eq_refl)
    as (entries' & teams & Hshape & Hteams & Hloop); try done.
  injection Hshape as <-. intros _. by exists entries, teams, team_config, i.
Qed.

(** C9, as stated, fails for a team whose record has all four
    required fields but whose [blue_green_enabled] is false: the team
    is found, nothing is missing, and the validation fails. *)
Lemma validation_rejects_disabled_team :
  let team_config : gmap string yaml :=
    {[ "team_name" := YStr "qa"; "blue_green_enabled" := YBool false;
       "active_environment" := YStr "green";
       "ports" := YDict {[ "web" := YInt 8080 ]} ]} in
  let config :=
    YDict {[ "jenkins_teams_config" := YList [YDict team_config] ]} in
  let w := World {[ "main.yml" := Document config ]} [] in
  find_team_from 0 [YDict team_config] "qa"
  = Returned (Some team_config, 0%Z)
  ∧ missing_fields team_config = []
  ∧ (validate_team_configuration IoOk "main.yml" "qa" w).1
    = Returned false.
Proof. by vm_compute. Qed.

(** C9, amended.  The validation succeeds exactly when the
    configuration file loads, the team is found in it, all four
    required fields ([team_name], [blue_green_enabled],
    [active_environment], [ports]) are present in its record, and
    [blue_green_enabled] is true.  When fields are missing, the
    validation fails with one error line that names every missing
    field. *)
Theorem validation_requires_fields_and_flag (read : io_outcome)
    (config_path team_name : string) (w : world) :
  let run := validate_team_configuration read config_path team_name w in
  required_fields
  = ["team_name"; "blue_green_enabled"; "active_environment"; "ports"]
  ∧ (run.1 = Returned true ↔
     ∃ entries teams team_config i,
       read = IoOk
       ∧ files w !! config_path = Some (Document (YDict entries))
       ∧ entries !! "jenkins_teams_config" = Some (YList teams)
       ∧ find_team_from 0 teams team_name = Returned (Some team_config, i)
       ∧ (∀ f, f ∈ required_fields → is_Some (team_config !! f))
       ∧ truthy (default (YBool false)
                   (team_config !! "blue_green_enabled")) = true)
  ∧ (∀ entries teams team_config i,
       read = IoOk →
       files w !! config_path = Some (Document (YDict entries)) →
       entries !! "jenkins_teams_config" = Some (YList teams) →
       find_team_from 0 teams team_name = Returned (Some team_config, i) →
       (∃ f, f ∈ required_fields ∧ team_config !! f = None) →
       ∃ msg,
         run = (Returned false,
                World (files w) (console w ++ [LogError (Plain msg)]))
         ∧ ∀ f, f ∈ required_fields → team_config !! f = None →
                Str.contains f msg = true).
Proof.
  intros run. subst run. split; [done|]. split; [split|].
  - intros Hok.
    destruct (validate_success_found _ _ _ _ Hok)
      as (entries & teams & team_config & i & -> & Hfile & Hteams & Hloop).
    exists entries, teams, team_config, i. repeat split; try done.
    + apply missing_fields_nil.
      rewrite (validate_found _ _ _ _ _ _ _ Hfile Hteams Hloop) in Hok.
      destruct (missing_fields team_config); [done|]. by simpl in Hok.
    + rewrite (validate_found _ _ _ _ _ _ _ Hfile Hteams Hloop) in Hok.
      destruct (negb (Nat.eqb (length (missing_fields team_config)) 0));
        [done|].
      by destruct (truthy _).
  - intros (entries & teams & team_config & i & -> & Hfile & Hteams & Hloop
            & Hall & Henabled).
    rewrite (validate_found _ _ _ _ _ _ _ Hfile Hteams Hloop).
    apply missing_fields_nil in Hall. by rewrite Hall, Henabled.
  - intros entries teams team_config i -> Hfile Hteams Hloop
      (f & Hreq & Hnone).
    rewrite (validate_found _ _ _ _ _ _ _ Hfile Hteams Hloop).
    assert (f ∈ missing_fields team_config) as Hmissing
      by by apply missing_fields_spec.
    destruct (missing_fields team_config) as [|m rest] eqn:Hm.
    { by apply elem_of_nil in Hmissing. }
    simpl. eexists. split; [reflexivity|].
    intros f' Hreq' Hnone'.
    apply contains_app_l, contains_app_l, contains_app_l.
    apply repr_fields_names. rewrite <- Hm. by apply missing_fields_spec.
Qed.

Lemma validation_requires_fields_and_flag_witness :
  ∃ msg,
    validate_team_configuration IoOk "main.yml" "qa"
      (World
         {[ "main.yml" :=
              Document
                (YDict
                   {[ "jenkins_teams_config" :=
                        YList
                          [YDict {[ "team_name" := YStr "qa";
                                    "blue_green_enabled" := YBool true
                                 ]}] ]}) ]} [])
    = (Returned false,
       World
         {[ "main.yml" :=
              Document
                (YDict
                   {[ "jenkins_teams_config" :=
                        YList
                          [YDict {[ "team_name" := YStr "qa";
                                    "blue_green_enabled" := YBool true
                                 ]}] ]}) ]}
         ([] ++ [LogError (Plain msg)]))
    ∧ Str.contains "active_environment" msg = true
    ∧ Str.contains "ports" msg = true.
Proof.
  destruct (validation_requires_fields_and_flag IoOk "main.yml" "qa"
              (World
                 {[ "main.yml" :=
                      Document
                        (YDict
                           {[ "jenkins_teams_config" :=
                                YList
                                  [YDict {[ "team_name" := YStr "qa";
                                            "blue_green_enabled" :=
                                              YBool true ]}] ]}) ]} []))
    as (_ & _ & Hnamed).
  destruct (Hnamed
              {[ "jenkins_teams_config" :=
                   YList [YDict {[ "team_name" := YStr "qa";
                                   "blue_green_enabled" := YBool true ]}] ]}
              [YDict {[ "team_name" := YStr "qa";
                        "blue_green_enabled" := YBool true ]}]
              {[ "team_name" := YStr "qa";
                 "blue_green_enabled" := YBool true ]}
              0%Z eq_refl eq_refl eq_refl eq_refl)
    as (msg & Hrun & Hcontains).
  { exists "ports". split; [|by vm_compute].
    unfold required_fields. do 3 apply list_elem_of_further.
    apply list_elem_of_here. }
  exists msg. split; [exact Hrun|]. split.
  - apply Hcontains; [|by vm_compute].
    unfold required_fields. do 2 apply list_elem_of_further.
    apply list_elem_of_here.
  - apply Hcontains; [|by vm_compute].
    unfold required_fields. do 3 apply list_elem_of_further.
    apply list_elem_of_here.
Defined.

Lemma string_app_assoc (a b c : string) :
  a +:+ (b +:+ c) = (a +:+ b) +:+ c.
Proof.
  induction a as [|x a IH]; [done|].
  change (String x (a +:+ (b +:+ c)) = String x ((a +:+ b) +:+ c)).
  by rewrite IH.
Qed.

(** One turn of the loop of [show_team_environments] on a record that
    is a mapping. *)
Lemma show_rows_cons (team_config : gmap string yaml) (rest : list yaml)
    (w : world) :
  show_rows (YDict team_config :: rest) w
  = match
      format_width 8 (default (YStr "unknown") (team_config !! "team_name")),
      format_width 5
        (default (YStr "unknown") (team_config !! "active_environment"))
    with
    | Returned name_text, Returned environment_text =>
        show_rows rest
          (World (files w)
             (console w ++
              [Printed
                 ("Team: " +:+ name_text +:+ " | Environment: " +:+
                  environment_text +:+ " | Blue-Green: " +:+
                  (if truthy (default (YBool false)
                                (team_config !! "blue_green_enabled"))
                   then "✅ Enabled" else "❌ Disabled"))]))
    | Raised e, _ => (Raised e, w)
    | Returned _, Raised e => (Raised e, w)
    end.
Proof.
  cbn [show_rows]. unfold mbind, M_bind, bind, lift, print, emit. simpl.
  destruct (format_width 8 _); [|done].
  by destruct (format_width 5 _).
Qed.

Lemma show_rows_cons_other (t : yaml) (rest : list yaml) (w : world) :
  (∀ team_config, t ≠ YDict team_config) →
  show_rows (t :: rest) w = (Raised AttributeError, w).
Proof.
  intros Hother. cbn [show_rows]. unfold mbind, M_bind, bind, lift.
  destruct t; try done. by destruct (Hother entries).
Qed.

(** The loop only adds lines to the console. *)
Lemma show_rows_keeps_console (teams : list yaml) :
  ∀ (w : world) (l : line),
    l ∈ console w → l ∈ console (show_rows teams w).2.
Proof.
  induction teams as [|t teams IH]; intros w l Hin; [done|].
  destruct t as [| | | | |team_config];
    try (by rewrite show_rows_cons_other).
  rewrite show_rows_cons.
  destruct (format_width 8 _); [|done].
  destruct (format_width 5 _); [|done].
  apply IH. simpl. apply elem_of_app. by left.
Qed.

(** When the loop completes, every record without
    [active_environment] has a row that shows the environment
    "unknown". *)
Lemma show_rows_unknown (teams : list yaml) :
  ∀ (w : world) (team_config : gmap string yaml),
    (show_rows teams w).1 = Returned () →
    YDict team_config ∈ teams →
    team_config !! "active_environment" = None →
    ∃ text,
      Printed text ∈ console (show_rows teams w).2
      ∧ Str.contains "Environment: unknown" text = true.
Proof.
  induction teams as [|t teams IH]; intros w team_config Hdone Hin Hnone.
  { by apply elem_of_nil in Hin. }
  destruct t as [| | | | |head];
    try (by rewrite show_rows_cons_other in Hdone).
  rewrite show_rows_cons in Hdone |- *.
  destruct (format_width 8 _) as [name_text|] eqn:Hname; [|done].
  destruct (format_width 5 _) as [environment_text|] eqn:Henv; [|done].
  apply elem_of_cons in Hin as [[= <-]|Hin]; [|by eapply IH].
  rewrite Hnone in Henv. injection Henv as <-.
  eexists. split.
  - apply show_rows_keeps_console. simpl.
    apply elem_of_app. right. apply list_elem_of_here.
  - apply contains_app_l, contains_app_l.
    rewrite (string_app_assoc " | Environment: ").
    by apply contains_app_r.
Qed.

(** [show_team_environments] on a well-formed file: header, rows,
    closing empty line. *)
Lemma show_team_environments_run (config_path : string) (w : world)
    (entries : gmap string yaml) (teams : list yaml) :
  files w !! config_path = Some (Document (YDict entries)) →
  entries !! "jenkins_teams_config" = Some (YList teams) →
  let rows :=
    show_rows teams
      (World (files w)
         (console w ++
          [Printed (String (Ascii.ascii_of_nat 10)
                      "=== Current Team Environments ===")])) in
  show_team_environments IoOk config_path w
  = match rows.1 with
    | Returned _ =>
        (Returned true,
         World (files rows.2) (console rows.2 ++ [Printed ""]))
    | Raised e => (Raised e, rows.2)
    end.
Proof.
  intros Hfile Hteams rows. subst rows.
  unfold show_team_environments, mbind, M_bind, bind, lift, exists_.
  rewrite Hfile. simpl. rewrite load_yaml_config_run, Hfile. simpl.
  rewrite Hteams. simpl.
  destruct (show_rows teams _) as [[[]|e] w']; done.
Qed.

(** C8.  The code at a team record that lacks [active_environment]
    only.  The update does not refuse to answer: it reads the team as
    being on blue, so that an update to blue reports success as
    "already on environment 'blue'" and an update to green is logged
    as a move from blue.  The display lists the team with the
    environment "unknown".  The validation of the same script refuses
    the same record, naming [active_environment] as missing. *)
Theorem missing_environment_read_as_blue :
  let record :=
    YDict {[ "team_name" := YStr "qa";
             "blue_green_enabled" := YBool true;
             "ports" := YDict {[ "web" := YInt 8080 ]} ]} in
  let w :=
    World
      {[ "main.yml" :=
           Document (YDict {[ "jenkins_teams_config" := YList [record] ]}) ]}
      [] in
  let io := UpdateIo "20240101_120000" Copied IoOk Written Copied IoOk in
  let to_blue := update_team_environment io "qa" "blue" "main.yml" w in
  let to_green := update_team_environment io "qa" "green" "main.yml" w in
  to_blue.1 = Returned true
  ∧ console to_blue.2
    = [LogInfo (Plain "Created backup: main.yml.backup_20240101_120000");
       LogInfo (Plain "Team 'qa' is already on environment 'blue'")]
  ∧ files to_blue.2 !! "main.yml" = files w !! "main.yml"
  ∧ to_green.1 = Returned true
  ∧ console to_green.2
    = [LogInfo (Plain "Created backup: main.yml.backup_20240101_120000");
       LogInfo
         (Around "Updating team 'qa' from '" (YStr "blue") "' to 'green'");
       LogSuccess
         (Plain "Successfully updated team 'qa' to environment 'green'");
       LogSuccess (Plain "Configuration change verified")]
  ∧ show_team_environments IoOk "main.yml" w
    = (Returned true,
       World (files w)
         [Printed (String (Ascii.ascii_of_nat 10)
                     "=== Current Team Environments ===");
          Printed
            "Team: qa       | Environment: unknown | Blue-Green: ✅ Enabled";
          Printed ""])
  ∧ validate_team_configuration IoOk "main.yml" "qa" w
    = (Returned false,
       World (files w)
         [LogError
            (Plain
               "Team 'qa' missing required fields: ['active_environment']")]).
Proof. by vm_compute. Qed.

(** The same holds of every configuration in which the record found
    for the team lacks [active_environment]: the update takes blue as
    the current environment, so an update to blue reports success and
    leaves the file as it was, while the validation refuses the record
    and names [active_environment] as missing. *)
Lemma missing_environment_defaults (io : update_io)
    (team_name config_path : string) (w : world)
    (entries : gmap string yaml) (teams : list yaml)
    (team_config : gmap string yaml) (i : Z) :
  files w !! config_path = Some (Document (YDict entries)) →
  entries !! "jenkins_teams_config" = Some (YList teams) →
  find_team_from 0 teams team_name = Returned (Some team_config, i) →
  team_config !! "active_environment" = None →
  (backup_copy io = Copied → load_read io = IoOk →
   let run :=
     update_team_environment io team_name "blue" config_path w in
   run.1 = Returned true
   ∧ files run.2 !! config_path = files w !! config_path
   ∧ LogInfo (Plain ("Team '" +:+ team_name +:+
                     "' is already on environment 'blue'"))
     ∈ console run.2)
  ∧ (let run :=
       validate_team_configuration IoOk config_path team_name w in
     run.1 = Returned false
     ∧ ∃ msg,
         LogError (Plain msg) ∈ console run.2
         ∧ Str.contains "active_environment" msg = true).
Proof.
  intros Hfile Hteams Hloop Hnone. split.
  - intros Hbackup Hload.
    pose proof (update_reaches_search io team_name "blue" config_path w
                  entries teams (Some team_config) i) as Hrun.
    simpl in Hrun. rewrite Hnone in Hrun. simpl in Hrun.
    apply Hrun; try done.
    + apply list_elem_of_here.
    + by right.
  - intros run. subst run.
    rewrite (validate_found _ _ _ _ _ _ _ Hfile Hteams Hloop).
    assert ("active_environment" ∈ missing_fields team_config) as Hmissing.
    { apply missing_fields_spec. split; [|done].
      unfold required_fields. do 2 apply list_elem_of_further.
      apply list_elem_of_here. }
    destruct (missing_fields team_config) as [|m rest] eqn:Hm.
    { by apply elem_of_nil in Hmissing. }
    simpl. split; [done|]. eexists. split.
    + apply elem_of_app. right. apply list_elem_of_here.
    + apply contains_app_l, contains_app_l, contains_app_l.
      apply repr_fields_names. by rewrite <- Hm in Hmissing |- *.
Qed.

End script.

(** * Further properties of the operator script *)

Section script_effects.
Import TeamConfig.

(** The loop of [find_team_in_config], read off its result: a record is
    returned exactly when it is the first one naming the team and every
    record before it is a mapping; nothing is found exactly when every
    record is a mapping naming another team. *)
Lemma find_team_from_first (teams : list yaml) :
  ∀ (j : Z) (team_name : string),
    (∀ team_config i,
       find_team_from j teams team_name = Returned (Some team_config, i) ↔
       ∃ before after,
         teams = before ++ YDict team_config :: after
         ∧ i = (j + Z.of_nat (length before))%Z
         ∧ eq_str (default YNull (team_config !! "team_name")) team_name
           = true
         ∧ Forall (λ t, ∃ m, t = YDict m
                          ∧ eq_str (default YNull (m !! "team_name"))
                                   team_name = false) before)
    ∧ (∀ found i,
         find_team_from j teams team_name = Returned (found, i) →
         found = None →
         i = (-1)%Z
         ∧ Forall (λ t, ∃ m, t = YDict m
                          ∧ eq_str (default YNull (m !! "team_name"))
                                   team_name = false) teams).
Proof.
  induction teams as [|t teams IH]; intros j team_name.
  { split.
    - intros team_config i. split; [done|].
      intros (before & after & Happ & _). by destruct before.
    - intros found i [= <- <-] _. by split. }
  destruct (IH (j + 1)%Z team_name) as [IHfound IHnone]. split.
  - intros team_config i. split.
    + intros Hfind. simpl in Hfind.
      destruct t as [| | | | |entries]; try done.
      destruct (eq_str (default YNull (entries !! "team_name")) team_name)
        eqn:Hname.
      * injection Hfind as -> ->. exists [], teams. simpl.
        repeat split; [lia | done | constructor].
      * apply IHfound in Hfind
          as (before & after & -> & -> & Hmatch & Hbefore).
        exists (YDict entries :: before), after. simpl.
        repeat split; [lia | done |].
        constructor; [by exists entries | done].
    + intros (before & after & Happ & -> & Hmatch & Hbefore).
      destruct before as [|b before]; simpl in Happ.
      * injection Happ as -> ->. simpl. rewrite Hmatch.
        do 2 f_equal. lia.
      * injection Happ as -> ->.
        apply Forall_cons in Hbefore as [(m & -> & Hm) Hbefore].
        simpl. rewrite Hm. apply IHfound.
        exists before, after. repeat split; [|done..].
        simpl length. lia.
  - intros found i Hfind ->. simpl in Hfind.
    destruct t as [| | | | |entries]; try done.
    destruct (eq_str (default YNull (entries !! "team_name")) team_name)
      eqn:Hname; [done|].
    destruct (IHnone None i Hfind eq_refl) as [-> Hall].
    split; [done|]. constructor; [by exists entries | done].
Qed.

(** X1.  On a configuration holding a list of teams,
    [find_team_in_config] returns the first record that names the team,
    with its position: every record before it is a mapping naming
    another team, so of two records with the same name only the first
    is ever found.  It returns no record, with index -1, only when every
    record is a mapping naming another team. *)
Theorem find_team_first_match (entries : gmap string yaml)
    (teams : list yaml) (team_name : string) (w : world) :
  entries !! "jenkins_teams_config" = Some (YList teams) →
  let found := (find_team_in_config (YDict entries) team_name w).1 in
  (∀ team_config i,
     found = Returned (Some team_config, i) ↔
     ∃ before after,
       teams = before ++ YDict team_config :: after
       ∧ i = Z.of_nat (length before)
       ∧ eq_str (default YNull (team_config !! "team_name")) team_name = true
       ∧ Forall (λ t, ∃ m, t = YDict m
                        ∧ eq_str (default YNull (m !! "team_name"))
                                 team_name = false) before)
  ∧ (∀ i, found = Returned (None, i) →
       i = (-1)%Z
       ∧ Forall (λ t, ∃ m, t = YDict m
                        ∧ eq_str (default YNull (m !! "team_name"))
                                 team_name = false) teams).
Proof.
  intros Hteams found. subst found.
  rewrite (find_team_in_config_list _ teams) by done. simpl.
  destruct (find_team_from_first teams 0 team_name) as [Hfound Hnone].
  split.
  - intros team_config i. rewrite Hfound.
    by setoid_rewrite Z.add_0_l.
  - intros i Hfind. by apply (Hnone None i).
Qed.

Lemma find_team_first_match_witness :
  (find_team_in_config
     (YDict
        {[ "jenkins_teams_config" :=
             YList [YDict {[ "team_name" := YStr "qa" ]};
                    YDict {[ "team_name" := YStr "devops";
                             "active_environment" := YStr "blue" ]};
                    YDict {[ "team_name" := YStr "devops";
                             "active_environment" := YStr "green" ]}] ]})
     "devops" (World ∅ [])).1
  = Returned (Some {[ "team_name" := YStr "devops";
                      "active_environment" := YStr "blue" ]}, 1%Z).
Proof.
  apply (find_team_first_match
           {[ "jenkins_teams_config" :=
                YList [YDict {[ "team_name" := YStr "qa" ]};
                       YDict {[ "team_name" := YStr "devops";
                                "active_environment" := YStr "blue" ]};
                       YDict {[ "team_name" := YStr "devops";
                                "active_environment" := YStr "green" ]}] ]}
           [YDict {[ "team_name" := YStr "qa" ]};
            YDict {[ "team_name" := YStr "devops";
                     "active_environment" := YStr "blue" ]};
            YDict {[ "team_name" := YStr "devops";
                     "active_environment" := YStr "green" ]}]
           "devops" (World ∅ [])); [by vm_compute|].
  exists [YDict {[ "team_name" := YStr "qa" ]}],
         [YDict {[ "team_name" := YStr "devops";
                   "active_environment" := YStr "green" ]}].
  split; [reflexivity|]. split; [reflexivity|]. split; [by vm_compute|].
  apply Forall_cons. split; [|apply Forall_nil_2].
  exists {[ "team_name" := YStr "qa" ]}. split; [reflexivity | by vm_compute].
Defined.

(** Every run of [update_team_environment] is of one of three kinds:
    it stops before the backup and writes nothing; it takes the backup
    and leaves the configuration alone; or it finds the team on another
    environment and attempts the write. *)
Lemma update_run_cases (io : update_io)
    (team_name new_environment config_path : string) (w : world) :
  let run :=
    update_team_environment io team_name new_environment config_path w in
  let backup_path := config_path +:+ ".backup_" +:+ backup_stamp io in
  (run.1 = Returned false
   ∧ (files run.2 = files w
      ∨ ∃ damaged, files run.2 = <[backup_path := damaged]> (files w))
   ∧ (new_environment ∉ ["blue"; "green"]
      ∨ files w !! config_path = None
      ∨ ∃ text damage, backup_copy io = CopyFails text damage))
  ∨ (∃ c,
       new_environment ∈ ["blue"; "green"]
       ∧ files w !! config_path = Some c
       ∧ backup_copy io = Copied
       ∧ files run.2 = <[backup_path := c]> (files w)
       ∧ (run.1 = Returned true →
          ∃ entries teams team_config i,
            c = Document (YDict entries)
            ∧ load_read io = IoOk
            ∧ entries !! "jenkins_teams_config" = Some (YList teams)
            ∧ find_team_from 0 teams team_name
              = Returned (Some team_config, i)
            ∧ eq_str (default (YStr "blue")
                        (team_config !! "active_environment"))
                     new_environment = true))
  ∨ (∃ entries teams team_config i,
       new_environment ∈ ["blue"; "green"]
       ∧ files w !! config_path = Some (Document (YDict entries))
       ∧ backup_copy io = Copied
       ∧ load_read io = IoOk
       ∧ entries !! "jenkins_teams_config" = Some (YList teams)
       ∧ find_team_from 0 teams team_name = Returned (Some team_config, i)
       ∧ eq_str (default (YStr "blue")
                   (team_config !! "active_environment"))
                new_environment = false
       ∧ let saved := <[backup_path := Document (YDict entries)]> (files w) in
         match save_write io with
         | Written =>
             run.1 = Returned true
             ∧ files run.2
               = <[config_path :=
                     Document
                       (YDict
                          (<["jenkins_teams_config" :=
                               YList
                                 (<[Z.to_nat i :=
                                      YDict (<["active_environment" :=
                                                 YStr new_environment]>
                                               team_config)]> teams)]>
                             entries))]> saved
         | WriteFails _ damage =>
             let failed :=
               match damage with
               | Some damaged => <[config_path := damaged]> saved
               | None => saved
               end in
             run.1 = Returned false
             ∧ files run.2
               = match restore_copy io with
                 | Copied =>
                     <[config_path := Document (YDict entries)]> failed
                 | CopyFails _ (Some damaged) =>
                     <[config_path := damaged]> failed
                 | CopyFails _ None => failed
                 end
         end).
Proof.
  intros run backup_path. subst run backup_path.
  unfold update_team_environment, mbind, M_bind, bind.
  rewrite validate_environment_run.
  case_bool_decide as Henv; simpl;
    [|left; split; [done|]; split; by left].
  destruct (files w !! config_path) as [c|] eqn:Hfile; simpl;
    [|left; split; [done|]; split; [by left | right; by left]].
  rewrite backup_config_file_run, Hfile. cbv zeta.
  destruct (backup_copy io) as [|text [damaged|]] eqn:Hbackup; simpl;
    [| left; split; [done|]; split;
       [right; by eexists | right; right; by do 2 eexists]
     | left; split; [done|]; split;
       [by left | right; right; by do 2 eexists]].
  rewrite load_yaml_config_run. simpl.
  rewrite lookup_insert_ne by apply backup_path_fresh. rewrite Hfile.
  destruct (load_read io) eqn:Hload; simpl;
    [|right; left; by exists c].
  destruct c as [config|raw err]; simpl;
    [|right; left; by eexists].
  destruct config as [| | |s|items|entries] eqn:Hconfig; cbv beta iota;
    [right; left; by eexists|..].
  all: match goal with
       | |- context [find_team_in_config ?c ?t ?w0] =>
           destruct (find_team_in_config c t w0) as [found w1] eqn:Hfind
       end.
  all: apply find_team_in_config_spec in Hfind as [Hfiles Hfound];
    simpl in Hfiles.
  all: destruct found as [[[team_config|] i]|e]; simpl;
    try (right; left; eexists; by repeat split).
  all: destruct (Hfound team_config i eq_refl)
    as (entries' & teams & Hshape & Hteams & Hloop); try done.
  injection Hshape as <-.
  destruct (eq_str _ new_environment) eqn:Hcurrent; simpl.
  { right; left. eexists. repeat split; try done.
    intros _. by exists entries, teams, team_config, i. }
  right; right. exists entries, teams, team_config, i.
  do 7 (split; [done|]).
  pose proof (find_team_from_found _ _ _ _ _ Hloop) as (Hle & Hlook & Hname).
  rewrite Z.sub_0_r in Hlook. rewrite Hteams, Hlook.
  rewrite save_yaml_config_run.
  destruct (save_write io) as [|text damage]; simpl.
  - rewrite load_yaml_config_run. simpl. rewrite lookup_insert_eq.
    rewrite Hfiles.
    destruct (verify_read io); simpl; [|done].
    rewrite insert_size_nonzero. simpl.
    erewrite find_team_in_config_list by apply lookup_insert_eq.
    pose proof (find_team_from_assign teams 0 team_name team_config
                  (<["active_environment" := YStr new_environment]>
                     team_config) i Hloop) as Hverify.
    rewrite Z.sub_0_r in Hverify.
    rewrite Hverify by (by rewrite lookup_insert_ne).
    rewrite insert_size_nonzero, lookup_insert_eq. simpl.
    by rewrite String.eqb_refl.
  - unfold try_except, copy2, read_file, store, log_info, log_error, emit,
      mbind, M_bind, bind, mret, M_ret, ret.
    rewrite Hfiles.
    assert (config_path ≠ config_path +:+ ".backup_" +:+ backup_stamp io)
      as Hfresh by (symmetry; apply backup_path_fresh).
    destruct (restore_copy io) as [|text' [damaged'|]],
      damage as [damaged|]; simpl; try done.
    + by rewrite lookup_insert_ne, lookup_insert_eq by done.
    + by rewrite lookup_insert_eq.
    + by rewrite lookup_insert_ne, lookup_insert_eq by done.
    + by rewrite lookup_insert_eq.
Qed.

(** The run that writes: the team is found on another environment and
    the write succeeds. *)
Lemma update_written (io : update_io)
    (team_name new_environment config_path : string) (w : world)
    (entries : gmap string yaml) (teams : list yaml)
    (team_config : gmap string yaml) (i : Z) :
  new_environment ∈ ["blue"; "green"] →
  files w !! config_path = Some (Document (YDict entries)) →
  backup_copy io = Copied →
  load_read io = IoOk →
  entries !! "jenkins_teams_config" = Some (YList teams) →
  find_team_from 0 teams team_name = Returned (Some team_config, i) →
  eq_str (default (YStr "blue") (team_config !! "active_environment"))
         new_environment = false →
  save_write io = Written →
  let run :=
    update_team_environment io team_name new_environment config_path w in
  run.1 = Returned true
  ∧ files run.2 !! config_path
    = Some (Document
              (YDict
                 (<["jenkins_teams_config" :=
                      YList
                        (<[Z.to_nat i :=
                             YDict (<["active_environment" :=
                                        YStr new_environment]> team_config)]>
                           teams)]> entries))).
Proof.
  intros Henv Hfile Hbackup Hload Hteams Hloop Hcurrent Hsave run.
  subst run.
  unfold update_team_environment, mbind, M_bind, bind.
  rewrite validate_environment_run, bool_decide_eq_true_2 by done.
  simpl. rewrite Hfile. simpl.
  rewrite backup_config_file_run, Hfile, Hbackup. simpl.
  rewrite load_yaml_config_run, Hload. simpl.
  rewrite lookup_insert_ne, Hfile by apply backup_path_fresh.
  rewrite (find_team_in_config_list _ teams), Hloop by done.
  simpl. rewrite Hcurrent. simpl.
  pose proof (find_team_from_found _ _ _ _ _ Hloop) as (_ & Hlook & _).
  rewrite Z.sub_0_r in Hlook. rewrite Hteams, Hlook.
  rewrite save_yaml_config_run, Hsave. simpl.
  rewrite load_yaml_config_run. simpl. rewrite lookup_insert_eq.
  destruct (verify_read io); simpl; [|by rewrite lookup_insert_eq].
  rewrite insert_size_nonzero. simpl.
  erewrite find_team_in_config_list by apply lookup_insert_eq.
  pose proof (find_team_from_assign teams 0 team_name team_config
                (<["active_environment" := YStr new_environment]>
                   team_config) i Hloop) as Hverify.
  rewrite Z.sub_0_r in Hverify.
  rewrite Hverify by (by rewrite lookup_insert_ne).
  rewrite insert_size_nonzero, lookup_insert_eq. simpl.
  rewrite String.eqb_refl. simpl. by rewrite lookup_insert_eq.
Qed.

(** X2.  For a configuration file without YAML aliases, in which
    every place of the document is an object of its own: when the team
    is found on another environment and the write succeeds, the update
    reports success, whether or not the file can be read back for
    verification, and the file then holds the old configuration with
    one change: in the record found, [active_environment] is the new
    environment.  The other top-level entries, the other team records
    (also later records of the same name) and the other fields of the
    record are as before.  (An alias of the record found is the same
    object and would change with it; such documents are not values of
    [yaml].) *)
Theorem update_changes_one_field (io : update_io)
    (team_name new_environment config_path : string) (w : world)
    (entries : gmap string yaml) (teams : list yaml)
    (team_config : gmap string yaml) (i : Z) :
  new_environment ∈ ["blue"; "green"] →
  files w !! config_path = Some (Document (YDict entries)) →
  backup_copy io = Copied →
  load_read io = IoOk →
  entries !! "jenkins_teams_config" = Some (YList teams) →
  find_team_from 0 teams team_name = Returned (Some team_config, i) →
  eq_str (default (YStr "blue") (team_config !! "active_environment"))
         new_environment = false →
  save_write io = Written →
  let run :=
    update_team_environment io team_name new_environment config_path w in
  run.1 = Returned true
  ∧ ∃ entries' teams' team_config',
      files run.2 !! config_path = Some (Document (YDict entries'))
      ∧ (∀ key, key ≠ "jenkins_teams_config" →
                entries' !! key = entries !! key)
      ∧ entries' !! "jenkins_teams_config" = Some (YList teams')
      ∧ length teams' = length teams
      ∧ (∀ j, j ≠ Z.to_nat i → teams' !! j = teams !! j)
      ∧ teams' !! Z.to_nat i = Some (YDict team_config')
      ∧ team_config' !! "active_environment" = Some (YStr new_environment)
      ∧ (∀ field, field ≠ "active_environment" →
                  team_config' !! field = team_config !! field).
Proof.
  intros Henv Hfile Hbackup Hload Hteams Hloop Hcurrent Hsave run.
  destruct (update_written io team_name new_environment config_path w
              entries teams team_config i) as [Hrun Hwritten]; try done.
  split; [done|].
  exists (<["jenkins_teams_config" :=
             YList (<[Z.to_nat i :=
                        YDict (<["active_environment" :=
                                   YStr new_environment]> team_config)]>
                      teams)]> entries),
         (<[Z.to_nat i :=
              YDict (<["active_environment" := YStr new_environment]>
                       team_config)]> teams),
         (<["active_environment" := YStr new_environment]> team_config).
  split; [exact Hwritten|].
  pose proof (find_team_from_found _ _ _ _ _ Hloop) as (_ & Hlook & _).
  rewrite Z.sub_0_r in Hlook. apply lookup_lt_Some in Hlook.
  repeat split.
  - intros key Hkey. by rewrite lookup_insert_ne.
  - apply lookup_insert_eq.
  - apply length_insert.
  - intros j Hj. by rewrite list_lookup_insert_ne.
  - by apply list_lookup_insert_eq.
  - apply lookup_insert_eq.
  - intros field Hfield. by rewrite lookup_insert_ne.
Qed.

Lemma update_changes_one_field_witness :
  (update_team_environment
     (UpdateIo "20240101_120000" Copied IoOk Written Copied
        (IoFails "[Errno 13] Permission denied"))
     "devops" "green" "main.yml"
     (World
        {[ "main.yml" :=
             Document
               (YDict
                  {[ "jenkins_teams_config" :=
                       YList [YDict {[ "team_name" := YStr "devops";
                                       "active_environment" := YStr "blue"
                                    ]}] ]}) ]} [])).1
  = Returned true.
Proof.
  apply (update_changes_one_field
           (UpdateIo "20240101_120000" Copied IoOk Written Copied
              (IoFails "[Errno 13] Permission denied"))
           "devops" "green" "main.yml"
           (World
              {[ "main.yml" :=
                   Document
                     (YDict
                        {[ "jenkins_teams_config" :=
                             YList [YDict {[ "team_name" := YStr "devops";
                                             "active_environment" :=
                                               YStr "blue" ]}] ]}) ]} [])
           {[ "jenkins_teams_config" :=
                YList [YDict {[ "team_name" := YStr "devops";
                                "active_environment" := YStr "blue" ]}] ]}
           [YDict {[ "team_name" := YStr "devops";
                     "active_environment" := YStr "blue" ]}]
           {[ "team_name" := YStr "devops";
              "active_environment" := YStr "blue" ]} 0%Z);
    first [by vm_compute | repeat constructor].
Defined.

(** X3.  The update is idempotent: after an update that reported
    success, the same update again (its backup and its read succeeding)
    finds the team already on the environment, reports success, and
    leaves the configuration file as the first run left it. *)
Theorem update_twice (io io' : update_io)
    (team_name new_environment config_path : string) (w : world) :
  let run :=
    update_team_environment io team_name new_environment config_path w in
  run.1 = Returned true →
  backup_copy io' = Copied →
  load_read io' = IoOk →
  let again :=
    update_team_environment io' team_name new_environment config_path
      run.2 in
  again.1 = Returned true
  ∧ files again.2 !! config_path = files run.2 !! config_path
  ∧ LogInfo (Plain ("Team '" +:+ team_name +:+
                    "' is already on environment '" +:+
                    new_environment +:+ "'")) ∈ console again.2.
Proof.
  intros run Hok Hbackup Hload again. subst again.
  assert (∃ entries teams team_config i,
            new_environment ∈ ["blue"; "green"]
            ∧ files run.2 !! config_path = Some (Document (YDict entries))
            ∧ entries !! "jenkins_teams_config" = Some (YList teams)
            ∧ find_team_from 0 teams team_name
              = Returned (Some team_config, i)
            ∧ eq_str (default (YStr "blue")
                        (team_config !! "active_environment"))
                     new_environment = true)
    as (entries & teams & team_config & i & Henv & Hfile & Hteams & Hloop
        & Hcurrent).
  { destruct (update_run_cases io team_name new_environment config_path w)
      as [(Hfalse & _)|[Hkept|Hwrite]].
    - fold run in Hfalse. congruence.
    - destruct Hkept as (c & Henv & Hc & _ & Hfiles & Hfound).
      fold run in Hfiles, Hfound.
      destruct (Hfound Hok)
        as (entries & teams & team_config & i & -> & _ & Hteams & Hloop
            & Hcurrent).
      exists entries, teams, team_config, i. repeat split; try done.
      by rewrite Hfiles, lookup_insert_ne by apply backup_path_fresh.
    - destruct Hwrite
        as (entries & teams & team_config & i & Henv & _ & _ & _ & Hteams
            & Hloop & _ & Hsave).
      fold run in Hsave. simpl in Hsave.
      destruct (save_write io); [|destruct Hsave; congruence].
      destruct Hsave as [_ Hfiles].
      do 2 eexists.
      exists (<["active_environment" := YStr new_environment]> team_config),
             i.
      split; [done|]. split; [by rewrite Hfiles, lookup_insert_eq|].
      split; [apply lookup_insert_eq|]. split.
      + pose proof (find_team_from_assign teams 0 team_name team_config
                      (<["active_environment" := YStr new_environment]>
                         team_config) i Hloop) as Hverify.
        rewrite Z.sub_0_r in Hverify. apply Hverify.
        by rewrite lookup_insert_ne.
      + rewrite lookup_insert_eq. simpl. apply String.eqb_refl. }
  pose proof (update_reaches_search io' team_name new_environment
                config_path run.2 entries teams (Some team_config) i
                Henv Hfile Hbackup Hload (or_intror (conj Hteams Hloop)))
    as Hagain.
  simpl in Hagain. by rewrite Hcurrent in Hagain.
Qed.

Lemma update_twice_witness :
  (update_team_environment
     (UpdateIo "20240101_120001" Copied IoOk Written Copied IoOk)
     "devops" "green" "main.yml"
     (update_team_environment
        (UpdateIo "20240101_120000" Copied IoOk Written Copied IoOk)
        "devops" "green" "main.yml"
        (World
           {[ "main.yml" :=
                Document
                  (YDict
                     {[ "jenkins_teams_config" :=
                          YList [YDict {[ "team_name" := YStr "devops";
                                          "active_environment" :=
                                            YStr "blue" ]}] ]}) ]} [])).2).1
  = Returned true.
Proof.
  apply (update_twice
           (UpdateIo "20240101_120000" Copied IoOk Written Copied IoOk)
           (UpdateIo "20240101_120001" Copied IoOk Written Copied IoOk)
           "devops" "green" "main.yml"
           (World
              {[ "main.yml" :=
                   Document
                     (YDict
                        {[ "jenkins_teams_config" :=
                             YList [YDict {[ "team_name" := YStr "devops";
                                             "active_environment" :=
                                               YStr "blue" ]}] ]}) ]} []));
    first [by vm_compute | repeat constructor].
Defined.

(** X4.  The update touches two files only, the configuration file and
    the backup next to it: every other file is as before, whatever the
    outcome.  Once the backup has been taken (valid environment, file
    present, copy succeeding) the backup file holds the original
    contents at the end of the run, whatever happened to the
    configuration file afterwards. *)
Theorem update_touches_two_files (io : update_io)
    (team_name new_environment config_path : string) (w : world) :
  let run :=
    update_team_environment io team_name new_environment config_path w in
  let backup_path := config_path +:+ ".backup_" +:+ backup_stamp io in
  (∀ path, path ≠ config_path → path ≠ backup_path →
           files run.2 !! path = files w !! path)
  ∧ (∀ c, new_environment ∈ ["blue"; "green"] →
          files w !! config_path = Some c →
          backup_copy io = Copied →
          files run.2 !! backup_path = Some c).
Proof.
  intros run backup_path. subst run backup_path.
  assert (config_path ≠ config_path +:+ ".backup_" +:+ backup_stamp io)
    as Hfresh by (symmetry; apply backup_path_fresh).
  pose proof (update_run_cases io team_name new_environment config_path w)
    as Hcases.
  cbv zeta in Hcases.
  destruct Hcases as [(_ & Hfiles & Hcause)|[Hkept|Hwrite]].
  - split.
    + intros path _ Hpath.
      destruct Hfiles as [->|[damaged ->]]; [done|].
      by rewrite lookup_insert_ne.
    + intros c Henv Hfile Hbackup.
      destruct Hcause as [Hbad|[Hnone|(text & damage & Hfails)]];
        [done| |]; congruence.
  - destruct Hkept as (c & _ & Hc & _ & Hfiles & _). rewrite Hfiles. split.
    + intros path _ Hpath. by rewrite lookup_insert_ne.
    + intros c' _ Hfile _. rewrite lookup_insert_eq. congruence.
  - destruct Hwrite
      as (entries & teams & team_config & i & _ & Hc & _ & _ & _ & _ & _
          & Hsave).
    assert (∃ extra : gmap string content → gmap string content,
              files (update_team_environment io team_name new_environment
                       config_path w).2
              = extra (<[config_path +:+ ".backup_" +:+ backup_stamp io :=
                           Document (YDict entries)]> (files w))
              ∧ ∀ m path, path ≠ config_path →
                          extra m !! path = m !! path)
      as (extra & Hfiles & Hextra).
    { destruct (save_write io) as [|text damage].
      - destruct Hsave as [_ Hfiles]. eexists (insert config_path _).
        split; [exact Hfiles|]. intros m path Hpath.
        by rewrite lookup_insert_ne.
      - destruct Hsave as [_ Hfiles].
        destruct (restore_copy io) as [|text' [damaged'|]],
          damage as [damaged|].
        + eexists (λ m, <[config_path := _]> (<[config_path := _]> m)).
          split; [exact Hfiles|]. intros m path Hpath.
          by rewrite !lookup_insert_ne.
        + eexists (insert config_path _).
          split; [exact Hfiles|]. intros m path Hpath.
          by rewrite lookup_insert_ne.
        + eexists (λ m, <[config_path := _]> (<[config_path := _]> m)).
          split; [exact Hfiles|]. intros m path Hpath.
          by rewrite !lookup_insert_ne.
        + eexists (insert config_path _).
          split; [exact Hfiles|]. intros m path Hpath.
          by rewrite lookup_insert_ne.
        + eexists (insert config_path _).
          split; [exact Hfiles|]. intros m path Hpath.
          by rewrite lookup_insert_ne.
        + exists (λ m, m). by split. }
    rewrite Hfiles. split.
    + intros path Hpath Hbackup. by rewrite Hextra, lookup_insert_ne.
    + intros c' _ Hfile _. rewrite Hextra, lookup_insert_eq by done.
      congruence.
Qed.

Lemma update_touches_two_files_witness :
  files
    (update_team_environment
       (UpdateIo "20240101_120000" Copied IoOk
          (WriteFails "[Errno 28] No space left on device"
             (Some (Garbled "" "empty document")))
          (CopyFails "[Errno 28] No space left on device" None) IoOk)
       "devops" "green" "main.yml"
       (World
          {[ "main.yml" :=
               Document
                 (YDict
                    {[ "jenkins_teams_config" :=
                         YList [YDict {[ "team_name" := YStr "devops";
                                         "active_environment" := YStr "blue"
                                      ]}] ]}) ]} [])).2
  !! "main.yml.backup_20240101_120000"
  = Some
      (Document
         (YDict
            {[ "jenkins_teams_config" :=
                 YList [YDict {[ "team_name" := YStr "devops";
                                 "active_environment" := YStr "blue" ]}] ]})).
Proof.
  apply (update_touches_two_files
           (UpdateIo "20240101_120000" Copied IoOk
              (WriteFails "[Errno 28] No space left on device"
                 (Some (Garbled "" "empty document")))
              (CopyFails "[Errno 28] No space left on device" None) IoOk)
           "devops" "green" "main.yml"
           (World
              {[ "main.yml" :=
                   Document
                     (YDict
                        {[ "jenkins_teams_config" :=
                             YList [YDict {[ "team_name" := YStr "devops";
                                             "active_environment" :=
                                               YStr "blue" ]}] ]}) ]} []));
    first [by vm_compute | repeat constructor].
Defined.

Lemma show_rows_files (teams : list yaml) :
  ∀ w : world, files (show_rows teams w).2 = files w.
Proof.
  induction teams as [|t teams IH]; intros w; [done|].
  destruct t as [| | | | |team_config];
    try (by rewrite show_rows_cons_other).
  rewrite show_rows_cons.
  destruct (format_width 8 _); [|done].
  destruct (format_width 5 _); [|done].
  by rewrite IH.
Qed.

Lemma load_yaml_config_files (read : io_outcome) (config_path : string)
    (w : world) :
  files (load_yaml_config read config_path w).2 = files w.
Proof.
  rewrite load_yaml_config_run.
  by destruct read, (files w !! config_path) as [[]|].
Qed.

(** X5.  Showing the environments and validating a team only read:
    whatever the file holds and however the call ends (verdict or
    exception), no file is created, changed or removed. *)
Theorem show_and_validate_read_only (read : io_outcome)
    (config_path team_name : string) (w : world) :
  files (show_team_environments read config_path w).2 = files w
  ∧ files (validate_team_configuration read config_path team_name w).2
    = files w.
Proof.
  split.
  - unfold show_team_environments, mbind, M_bind, bind, exists_.
    destruct (bool_decide (is_Some (files w !! config_path))); simpl;
      [|done].
    pose proof (load_yaml_config_files read config_path w) as Hload.
    destruct (load_yaml_config read config_path w) as [[config|e] w1];
      simpl in Hload; [|done].
    destruct config as [| | |s|items|entries]; simpl; try done.
    + by destruct (Str.contains _ s).
    + by destruct (existsb _ items).
    + destruct (bool_decide (is_Some (entries !! "jenkins_teams_config")));
        simpl; [|done].
      destruct (entries !! "jenkins_teams_config") as [teams|]; simpl;
        [|done].
      destruct (iterate teams) as [rows|e]; simpl; [|done].
      pose proof (show_rows_files rows
                    (World (files w1)
                       (console w1 ++
                        [Printed (String (Ascii.ascii_of_nat 10)
                                    "=== Current Team Environments ===")])))
        as Hrows.
      destruct (show_rows rows _) as [[[]|e] w2]; simpl in *; congruence.
  - unfold validate_team_configuration, mbind, M_bind, bind.
    pose proof (load_yaml_config_files read config_path w) as Hload.
    destruct (load_yaml_config read config_path w) as [[config|e] w1];
      simpl in Hload; [|done].
    destruct config as [| | |s|items|entries] eqn:Hconfig; cbv beta iota;
      [done|..].
    all: match goal with
         | |- context [find_team_in_config ?c ?t ?w0] =>
             destruct (find_team_in_config c t w0) as [found w2] eqn:Hfind
         end.
    all: apply find_team_in_config_spec in Hfind as [Hfiles _].
    all: destruct found as [[[team_config|] i]|e]; simpl; try congruence.
    all: by repeat case_match; simpl; congruence.
Qed.

(** X6.  An empty configuration file (a document that loads as [None])
    makes every command fail without a word of explanation: the update
    takes its backup, logs only that, and returns [False]; the display
    and the validation return [False] and print nothing. *)
Theorem empty_document_fails_silently (io : update_io)
    (team_name new_environment config_path : string) (w : world) :
  files w !! config_path = Some (Document YNull) →
  new_environment ∈ ["blue"; "green"] →
  backup_copy io = Copied →
  load_read io = IoOk →
  let backup_path := config_path +:+ ".backup_" +:+ backup_stamp io in
  update_team_environment io team_name new_environment config_path w
  = (Returned false,
     World (<[backup_path := Document YNull]> (files w))
       (console w ++ [LogInfo (Plain ("Created backup: " +:+ backup_path))]))
  ∧ show_team_environments IoOk config_path w = (Returned false, w)
  ∧ validate_team_configuration IoOk config_path team_name w
    = (Returned false, w).
Proof.
  intros Hfile Henv Hbackup Hload backup_path. subst backup_path.
  split; [|split].
  - unfold update_team_environment, mbind, M_bind, bind.
    rewrite validate_environment_run, bool_decide_eq_true_2 by done.
    simpl. rewrite Hfile. simpl.
    rewrite backup_config_file_run, Hfile, Hbackup. simpl.
    rewrite load_yaml_config_run, Hload. simpl.
    by rewrite lookup_insert_ne, Hfile by apply backup_path_fresh.
  - unfold show_team_environments, mbind, M_bind, bind, exists_.
    rewrite Hfile. simpl. by rewrite load_yaml_config_run, Hfile.
  - unfold validate_team_configuration, mbind, M_bind, bind.
    by rewrite load_yaml_config_run, Hfile.
Qed.

Lemma empty_document_fails_silently_witness :
  validate_team_configuration IoOk "main.yml" "devops"
    (World {[ "main.yml" := Document YNull ]} [])
  = (Returned false, World {[ "main.yml" := Document YNull ]} []).
Proof.
  apply (empty_document_fails_silently
           (UpdateIo "20240101_120000" Copied IoOk Written Copied IoOk)
           "devops" "green" "main.yml"
           (World {[ "main.yml" := Document YNull ]} []));
    first [by vm_compute | repeat constructor].
Defined.

(** X7.  The script exits with status 0 exactly when it was given a
    well-formed command ([update <team> <environment>], [show] with any
    further arguments, [validate <team>]) and the operation returned
    [True]; in every other case the status is 1.  A missing command, an
    unknown command and a wrong number of arguments change no file. *)
Theorem main_exit_status (argv : list string) (config_path : string)
    (io : update_io) (read : io_outcome) (w : world) :
  let run := Cli.main argv config_path io read w in
  (Cli.exit_status run.1 = 0%Z ∨ Cli.exit_status run.1 = 1%Z)
  ∧ (Cli.exit_status run.1 = 0%Z ↔
     (∃ script team_name new_environment,
        argv = [script; "update"; team_name; new_environment]
        ∧ (update_team_environment io team_name new_environment
             config_path w).1 = Returned true)
     ∨ (∃ script arguments,
          argv = script :: "show" :: arguments
          ∧ (show_team_environments read config_path w).1 = Returned true)
     ∨ (∃ script team_name,
          argv = [script; "validate"; team_name]
          ∧ (validate_team_configuration read config_path team_name w).1
            = Returned true))
  ∧ ((∀ script team_name new_environment,
        argv ≠ [script; "update"; team_name; new_environment]) →
     files run.2 = files w).
Proof.
  intros run. subst run. unfold Cli.main.
  destruct argv as [|script [|command arguments]].
  { simpl. split; [by right|]. split; [|done].
    split; [done|]. by intros [(?&?&?&?&?)|[(?&?&?&?)|(?&?&?&?)]]. }
  { simpl. split; [by right|]. split; [|done].
    split; [done|]. by intros [(?&?&?&?&?)|[(?&?&?&?)|(?&?&?&?)]]. }
  destruct (String.eqb_spec command "update") as [->|Hupdate].
  { destruct arguments as [|team_name [|new_environment [|extra rest]]];
      simpl.
    1,2,4: split; [by right|]; split; [|done];
      (split; [done|]);
      by intros [(?&?&?&?&?)|[(?&?&?&?)|(?&?&?&?)]].
    unfold mbind, M_bind, bind.
    destruct (update_team_environment io team_name new_environment
                config_path w) as [[[]|e] w'] eqn:Hrun; simpl.
    - split; [by left|]. split; [|by intros Hne; destruct (Hne script team_name new_environment)].
      split; [|done]. intros _. left.
      exists script, team_name, new_environment. by rewrite Hrun.
    - split; [by right|]. split; [|by intros Hne; destruct (Hne script team_name new_environment)].
      split; [done|].
      intros [(?&?&?&[= <- <- <-]&Hok)|[(?&?&?&?)|(?&?&?&?)]]; try done.
      by rewrite Hrun in Hok.
    - split; [by right|]. split; [|by intros Hne; destruct (Hne script team_name new_environment)].
      split; [done|].
      intros [(?&?&?&[= <- <- <-]&Hok)|[(?&?&?&?)|(?&?&?&?)]]; try done.
      by rewrite Hrun in Hok. }
  destruct (String.eqb_spec command "show") as [->|Hshow].
  { unfold mbind, M_bind, bind.
    pose proof (show_and_validate_read_only read config_path "" w)
      as [Hfiles _].
    destruct (show_team_environments read config_path w)
      as [[[]|e] w'] eqn:Hrun; simpl in *.
    - split; [by left|]. split; [|done]. split; [|done].
      intros _. right; left. by exists script, arguments.
    - split; [by right|]. split; [|done]. split; [done|].
      by intros [(?&?&?&?&?)|[(?&?&[= <- <-]&?)|(?&?&?&?)]].
    - split; [by right|]. split; [|done]. split; [done|].
      by intros [(?&?&?&?&?)|[(?&?&[= <- <-]&?)|(?&?&?&?)]]. }
  destruct (String.eqb_spec command "validate") as [->|Hvalidate].
  { destruct arguments as [|team_name [|extra rest]]; simpl.
    1,3: split; [by right|]; split; [|done];
      (split; [done|]);
      by intros [(?&?&?&?&?)|[(?&?&?&?)|(?&?&?&?)]].
    unfold mbind, M_bind, bind.
    pose proof (show_and_validate_read_only read config_path team_name w)
      as [_ Hfiles].
    destruct (validate_team_configuration read config_path team_name w)
      as [[[]|e] w'] eqn:Hrun; simpl in *.
    - split; [by left|]. split; [|done]. split; [|done].
      intros _. right; right. exists script, team_name. by rewrite Hrun.
    - split; [by right|]. split; [|done]. split; [done|].
      intros [(?&?&?&?&?)|[(?&?&?&?)|(?&?&[= <- <-]&Hok)]]; try done.
      by rewrite Hrun in Hok.
    - split; [by right|]. split; [|done]. split; [done|].
      intros [(?&?&?&?&?)|[(?&?&?&?)|(?&?&[= <- <-]&Hok)]]; try done.
      by rewrite Hrun in Hok. }
  simpl.
  split; [by right|]. split; [|done]. split; [done|].
  intros [(?&?&?&[= _ Hc _]&?)|[(?&?&[= _ Hc _]&?)|(?&?&[= _ Hc _]&?)]];
    done.
Qed.

Lemma main_exit_status_witness :
  files
    (Cli.main ["update-team-environment.py"; "update"; "devops"]
       "main.yml"
       (UpdateIo "20240101_120000" Copied IoOk Written Copied IoOk) IoOk
       (World {[ "main.yml" := Document YNull ]} [])).2
  = {[ "main.yml" := Document YNull ]}.
Proof.
  destruct (main_exit_status
              ["update-team-environment.py"; "update"; "devops"] "main.yml"
              (UpdateIo "20240101_120000" Copied IoOk Written Copied IoOk) IoOk
              (World {[ "main.yml" := Document YNull ]} []))
    as (_ & _ & Hfiles).
  apply Hfiles. intros script team_name new_environment. discriminate.
Defined.

End script_effects.

(** * Further properties of the circuit breaker *)

Section breaker_effects.
Import CircuitBreaker.

(** X8.  A run of failure reports, from any state: the counter grows by
    one per report and never saturates, the time of the last report is
    recorded, and the state is decided by the counter alone.  While the
    counter is below 3 the state name and the cooldown stay as they
    were; from 3 on the breaker is open and its cooldown is restarted
    from the last report, also when it was open or half-open already. *)
Theorem failures_restart_cooldown (readings : list (Q * Q)) (r : Q * Q)
    (st : cb_state) :
  let st' := report_failures (readings ++ [r]) st in
  let count :=
    (failure_count st + Z.of_nat (length readings) + 1)%Z in
  failure_count st' = count
  ∧ last_failure_time st' = Some r.1
  ∧ ((3 ≤ count)%Z →
     state st' = "open" ∧ cooldown_until st' = (r.2 + 1800)%Q)
  ∧ ((count < 3)%Z →
     state st' = state st ∧ cooldown_until st' = cooldown_until st).
Proof.
  intros st' count. subst st' count. unfold report_failures.
  rewrite foldl_snoc. fold (report_failures readings st).
  pose proof (report_failures_count readings st) as Hcount.
  split; [|split; [|split]].
  - unfold update_circuit_breaker; simpl.
    destruct (3 <=? _)%Z; simpl; lia.
  - unfold update_circuit_breaker; simpl. by destruct (3 <=? _)%Z.
  - intros Hreached. by rewrite update_failure_reached by lia.
  - intros Hbelow. rewrite update_failure_below by lia. simpl.
    split.
    + apply report_failures_below. lia.
    + clear Hcount. revert st Hbelow.
      induction readings as [|x readings IH]; intros st Hbelow; [done|].
      unfold report_failures in *. cbn [foldl].
      rewrite IH.
      * rewrite update_failure_below; [done|]. simpl length in Hbelow. lia.
      * rewrite update_failure_below by (simpl length in Hbelow; lia).
        simpl. simpl length in Hbelow. lia.
Qed.

Lemma failures_restart_cooldown_witness :
  state (report_failures ([] ++ [(5000, 5001)%Q])
           (CbState "open" 3 (Some 100%Q) 1900)) = "open"
  ∧ cooldown_until (report_failures ([] ++ [(5000, 5001)%Q])
                      (CbState "open" 3 (Some 100%Q) 1900))
    = (5001 + 1800)%Q.
Proof.
  apply (failures_restart_cooldown [] (5000, 5001)%Q
           (CbState "open" 3 (Some 100%Q) 1900)).
  simpl. lia.
Defined.

(** X9.  [attempt_recovery] and [can_execute_switch] make the same
    transition on the stored state, whatever the state and the time;
    they differ in the verdict only: the recovery succeeds exactly for
    an open breaker whose cooldown has passed, while the admission
    check rejects exactly an open breaker whose cooldown has not
    passed.  A breaker that is not open (closed, half-open) is never
    changed by either, and is always admitted: once half-open, the
    "single attempt" is not enforced by further checks. *)
Theorem recovery_and_admission_agree (now : Q) (file : cb_state) :
  (attempt_recovery now file).2 = (can_execute_switch now file).2
  ∧ ((attempt_recovery now file).1.1 = true ↔
     state file = "open" ∧ (cooldown_until file <= now)%Q)
  ∧ ((can_execute_switch now file).1.1 = false ↔
     state file = "open" ∧ (now < cooldown_until file)%Q)
  ∧ (state file ≠ "open" →
     (attempt_recovery now file).2 = file
     ∧ can_execute_switch now file
       = ((true, "Circuit breaker closed - operations allowed"), file)).
Proof.
  unfold attempt_recovery, can_execute_switch.
  pose proof (Qltb_lt now (cooldown_until file)) as Hlt.
  pose proof (Qle_bool_iff (cooldown_until file) now) as Hle.
  unfold Num.Qltb in *.
  destruct (String.eqb_spec (state file) "open") as [Hopen|Hother];
    destruct (Qle_bool (cooldown_until file) now); simpl in *;
    repeat split; try done; try tauto;
    try (intros [_ H]; apply Hlt in H; done);
    try (intros [_ H]; tauto);
    try (intros _; split; [done | tauto]).
Qed.

Lemma recovery_and_admission_agree_witness :
  can_execute_switch 10 (CbState "half-open" 5 None 0)
  = ((true, "Circuit breaker closed - operations allowed"),
     CbState "half-open" 5 None 0).
Proof.
  apply (recovery_and_admission_agree 10 (CbState "half-open" 5 None 0)).
  discriminate.
Defined.

End breaker_effects.

(** * Further properties of rollback *)

Section rollback_effects.
Import Rollback RollbackValidation.

(** X10.  A rollback changes the entry of its team only: every other
    team's entry is as before.  Rolling the same team back twice brings
    a blue or green team to the environment it started from, with the
    switch count grown by 2 and the second reason recorded.  Whatever
    the active environment was, after one rollback it is blue or
    green. *)
Theorem rollback_twice (state : bg_state) (team_name reason reason' : string)
    (team : team_state) :
  teams state !! team_name = Some team →
  let once := (execute_rollback team_name reason state).2 in
  let twice := (execute_rollback team_name reason' once).2 in
  (∀ other, other ≠ team_name →
            teams once !! other = teams state !! other
            ∧ teams twice !! other = teams state !! other)
  ∧ (∃ team1,
       teams once !! team_name = Some team1
       ∧ (active_environment team1 = "blue"
          ∨ active_environment team1 = "green"))
  ∧ ∃ team2,
      teams twice !! team_name = Some team2
      ∧ switch_count team2 = (switch_count team + 2)%Z
      ∧ last_rollback_reason team2 = Some reason'
      ∧ (active_environment team = "blue"
         ∨ active_environment team = "green" →
         active_environment team2 = active_environment team).
Proof.
  intros Hteam once twice. subst twice once.
  unfold execute_rollback. rewrite Hteam. simpl.
  rewrite lookup_insert_eq. simpl. split; [|split].
  - intros other Hother. by rewrite !lookup_insert_ne.
  - eexists. split; [reflexivity|]. simpl.
    destruct (String.eqb _ "green"); [by left | by right].
  - eexists. rewrite lookup_insert_eq. split; [reflexivity|]. simpl.
    split; [lia|]. split; [done|].
    by intros [->| ->].
Qed.

Lemma rollback_twice_witness :
  teams
    (execute_rollback "devops" "still failing"
       (execute_rollback "devops" "High error rate detected"
          (BgState
             {[ "devops" := TeamState "blue" "2024-01-01T00:00:00Z" 0
                              None None;
                "qa" := TeamState "green" "2024-01-01T00:00:00Z" 0
                          None None ]})).2).2
  !! "qa"
  = Some (TeamState "green" "2024-01-01T00:00:00Z" 0 None None).
Proof.
  destruct (rollback_twice
              (BgState
                 {[ "devops" := TeamState "blue" "2024-01-01T00:00:00Z" 0
                                  None None;
                    "qa" := TeamState "green" "2024-01-01T00:00:00Z" 0
                              None None ]})
              "devops" "High error rate detected" "still failing"
              (TeamState "blue" "2024-01-01T00:00:00Z" 0 None None))
    as (Hothers & _); [by vm_compute|].
  destruct (Hothers "qa") as [_ Htwice]; [discriminate|].
  rewrite Htwice. by vm_compute.
Defined.

(** X11.  The validation that follows a rollback accepts every rollback
    [execute_rollback] performs on a blue or green team, unless the
    switch count was -1 before: then the count is 0 afterwards and the
    validation answers "Switch count not updated" although the rollback
    took place.  For a team that is not in the file the validation does
    not answer, it raises [KeyError]. *)
Theorem rollback_then_validation (state : bg_state)
    (team_name reason : string) (team : team_state) :
  teams state !! team_name = Some team →
  active_environment team = "blue" ∨ active_environment team = "green" →
  let file := (execute_rollback team_name reason state).2 in
  let verdict :=
    validate_rollback_success file team_name (active_environment team) in
  (switch_count team ≠ (-1)%Z → ∃ msg, verdict = Found (true, msg))
  ∧ (switch_count team = (-1)%Z →
     verdict = Found (false, "Switch count not updated"))
  ∧ ∀ absent, teams state !! absent = None →
      validate_rollback_success file absent (active_environment team)
      = KeyError absent.
Proof.
  intros Hteam Henv file verdict. subst verdict file.
  unfold validate_rollback_success, execute_rollback.
  rewrite Hteam. simpl. rewrite lookup_insert_eq. simpl.
  split; [|split].
  - intros Hcount.
    destruct Henv as [-> | ->]; simpl;
      (destruct (Z.eqb_spec (switch_count team + 1) 0); [lia|]);
      by eexists.
  - intros Hcount. rewrite Hcount.
    by destruct Henv as [-> | ->].
  - intros absent Habsent.
    rewrite lookup_insert_ne; [by rewrite Habsent|].
    intros <-. congruence.
Qed.

Lemma rollback_then_validation_witness :
  ∃ msg,
    validate_rollback_success
      (execute_rollback "devops" "High error rate detected"
         (BgState
            {[ "devops" := TeamState "blue" "2024-01-01T00:00:00Z" 0
                             None None ]})).2
      "devops" "blue"
    = Found (true, msg).
Proof.
  apply (rollback_then_validation
           (BgState
              {[ "devops" := TeamState "blue" "2024-01-01T00:00:00Z" 0
                               None None ]})
           "devops" "High error rate detected"
           (TeamState "blue" "2024-01-01T00:00:00Z" 0 None None));
    [by vm_compute | by left | discriminate].
Defined.

End rollback_effects.

(** * Further properties of routing generation *)

Section routing_effects.
Import Routing.

(** A dict filled by assignments, from any start: a key that the list
    does not assign keeps its entry. *)
Lemma fill_lookup_other {A V : Type} (key : A → string) (val : A → V)
    (l : list A) (m : gmap string V) (k : string) :
  k ∉ key <$> l →
  foldl (λ m x, <[key x := val x]> m) m l !! k = m !! k.
Proof.
  revert m. induction l as [|x l IH]; intros m Hk; [done|].
  simpl. rewrite fmap_cons, not_elem_of_cons in Hk. destruct Hk as [Hx Hl].
  rewrite IH by done. by rewrite lookup_insert_ne.
Qed.

(** The last assignment of a key decides its entry. *)
Lemma fill_lookup_last {A V : Type} (key : A → string) (val : A → V)
    (before after : list A) (x : A) (m : gmap string V) :
  key x ∉ key <$> after →
  foldl (λ m x, <[key x := val x]> m) m (before ++ x :: after) !! key x
  = Some (val x).
Proof.
  intros Hafter. rewrite foldl_app. simpl.
  rewrite fill_lookup_other by done. apply lookup_insert_eq.
Qed.

(** X12.  The routing has an entry exactly for the names that occur in
    the team list, and when a name occurs more than once the last
    record with that name decides the entry: its active environment
    gives the primary server, whatever earlier records said. *)
Theorem routing_last_record_wins (teams : list team) :
  (∀ name, is_Some (configure_team_routing teams !! name)
           ↔ name ∈ team_name <$> teams)
  ∧ ∀ before team after,
      teams = before ++ team :: after →
      team_name team ∉ team_name <$> after →
      ∃ route,
        configure_team_routing teams !! team_name team = Some route
        ∧ primary_server route
          = "jenkins-" +:+ team_name team +:+ "-" +:+
            active_environment team.
Proof.
  split.
  - intros name. unfold configure_team_routing.
    induction teams as [|t teams IH] using rev_ind.
    { simpl. rewrite lookup_empty. split; [by intros [? ?]|].
      by intros ?%elem_of_nil. }
    rewrite foldl_snoc, fmap_app, elem_of_app. simpl.
    destruct (decide (team_name t = name)) as [<-|Hne].
    + rewrite lookup_insert_eq. split; [|done].
      intros _. right. apply list_elem_of_here.
    + rewrite lookup_insert_ne by done. rewrite IH. split; [by left|].
      intros [Hin|Hin%list_elem_of_singleton]; [done|]. by destruct Hne.
  - intros before team after -> Hafter. eexists. split.
    + unfold configure_team_routing.
      by apply (fill_lookup_last team_name).
    + done.
Qed.

Lemma routing_last_record_wins_witness :
  ∃ route,
    configure_team_routing
      ([Team "devops" "blue"] ++ Team "devops" "green" :: [Team "qa" "blue"])
    !! "devops" = Some route
    ∧ primary_server route = "jenkins-devops-green".
Proof.
  destruct (routing_last_record_wins
              ([Team "devops" "blue"] ++
               Team "devops" "green" :: [Team "qa" "blue"]))
    as [_ Hlast].
  apply (Hlast [Team "devops" "blue"] (Team "devops" "green")
           [Team "qa" "blue"] eq_refl).
  simpl. intros Hin%list_elem_of_singleton. discriminate Hin.
Defined.

(** X13.  The two generators agree: for every team list, also with
    repeated names and with environments other than blue and green,
    they have entries for the same names, and for each name the primary
    and backup servers of [configure_team_routing] are the primary and
    backup of [update_haproxy_routing]. *)
Theorem routing_generators_agree (env : string) (teams : list team)
    (name : string) :
  primary_server <$> (configure_team_routing teams !! name)
  = primary <$> (backends (update_haproxy_routing env teams) !! name)
  ∧ backup_server <$> (configure_team_routing teams !! name)
    = backup <$> (backends (update_haproxy_routing env teams) !! name).
Proof.
  unfold configure_team_routing, update_haproxy_routing. simpl.
  induction teams as [|t teams IH] using rev_ind; [done|].
  rewrite !foldl_snoc. simpl.
  destruct (decide (team_name t = name)) as [<-|Hne].
  - by rewrite !lookup_insert_eq.
  - by rewrite !lookup_insert_ne.
Qed.

End routing_effects.

(** * Further properties of the pre-switch checks *)

Lemma join_contains (sep x : string) (parts : list string) :
  x ∈ parts → Str.contains x (Str.join sep parts) = true.
Proof.
  induction parts as [|p rest IH]; intros Hin.
  { by apply elem_of_nil in Hin. }
  destruct rest as [|q rest].
  { apply list_elem_of_singleton in Hin as ->. apply contains_refl. }
  rewrite join_cons_cons.
  apply elem_of_cons in Hin as [->|Hin].
  - apply contains_app_r, contains_refl.
  - do 2 apply contains_app_l. by apply IH.
Qed.

Section builds.
Import Builds.

(** The inner loop: the builds of one job that are in progress are
    added, in order, to what was collected before. *)
Lemma active_builds_of_job (job_name : string) (l : list build)
    (active : list string) (x : string) :
  x ∈ foldl (λ active build,
               if default false (building build) then
                 active ++ [job_name +:+ "#" +:+ pretty (number build)]
               else active) active l
  ↔ x ∈ active
    ∨ ∃ b, b ∈ l ∧ default false (building b) = true
           ∧ x = job_name +:+ "#" +:+ pretty (number b).
Proof.
  revert active. induction l as [|b l IH]; intros active; simpl.
  { split; [by left|]. intros [?|(b & Hb%elem_of_nil & _)]; done. }
  rewrite IH. destruct (default false (building b)) eqn:Hb.
  - rewrite elem_of_app, list_elem_of_singleton. split.
    + intros [[Hin | ->] | (b' & Hin & Hbuilding & ->)].
      * by left.
      * right. exists b. split; [apply list_elem_of_here | done].
      * right. exists b'. split; [by apply list_elem_of_further | done].
    + intros [Hin|(b' & Hin & Hbuilding & ->)]; [by left; left|].
      apply elem_of_cons in Hin as [->|Hin]; [by left; right|].
      right. by exists b'.
  - split.
    + intros [Hin|(b' & Hin & Hbuilding & ->)]; [by left|].
      right. exists b'. split; [by apply list_elem_of_further | done].
    + intros [Hin|(b' & Hin & Hbuilding & ->)]; [by left|].
      apply elem_of_cons in Hin as [->|Hin]; [congruence|].
      right. by exists b'.
Qed.

Lemma active_builds_spec (r : api_response) (x : string) :
  x ∈ active_builds r
  ↔ ∃ j b, j ∈ default [] (jobs r) ∧ b ∈ default [] (builds j)
           ∧ default false (building b) = true
           ∧ x = name j +:+ "#" +:+ pretty (number b).
Proof.
  unfold active_builds.
  assert (∀ l active,
            x ∈ foldl (λ active job,
                         foldl (λ active build,
                                  if default false (building build) then
                                    active ++
                                    [name job +:+ "#" +:+
                                     pretty (number build)]
                                  else active)
                               active (default [] (builds job)))
                      active l
            ↔ x ∈ active
              ∨ ∃ j b, j ∈ l ∧ b ∈ default [] (builds j)
                       ∧ default false (building b) = true
                       ∧ x = name j +:+ "#" +:+ pretty (number b))
    as Hgen.
  { induction l as [|j l IH]; intros active; simpl.
    { split; [by left|]. intros [?|(j & b & Hj%elem_of_nil & _)]; done. }
    rewrite IH, active_builds_of_job. split.
    - intros [[Hin|(b & Hb & Hbuilding & ->)]|(j' & b & Hj & Hrest)].
      + by left.
      + right. exists j, b. split; [apply list_elem_of_here | done].
      + right. exists j', b. split; [by apply list_elem_of_further | done].
    - intros [Hin|(j' & b & Hj & Hb & Hbuilding & ->)]; [by left; left|].
      apply elem_of_cons in Hj as [->|Hj].
      + left; right. by exists b.
      + right. by exists j', b. }
  rewrite Hgen. split; [|by right].
  intros [Hin%elem_of_nil|Hex]; done.
Qed.

(** X14.  The active-build check allows the switch exactly when the API
    answered with status 200 and no build of any job is in progress
    (absent [jobs], [builds] and [building] keys count as none).  With
    another status the answer is "API unavailable" whatever the body
    says.  When it blocks for builds, the message names every build in
    progress as [job#number]. *)
Theorem active_builds_block_switch (r : api_response) :
  ((check_active_builds r).1 = true ↔
   status r = 200%Z
   ∧ ∀ j b, j ∈ default [] (jobs r) → b ∈ default [] (builds j) →
            default false (building b) = false)
  ∧ (status r ≠ 200%Z → check_active_builds r = (false, "API unavailable"))
  ∧ (status r = 200%Z →
     ∀ j b, j ∈ default [] (jobs r) → b ∈ default [] (builds j) →
            building b = Some true →
            (check_active_builds r).1 = false
            ∧ Str.contains (name j +:+ "#" +:+ pretty (number b))
                           (check_active_builds r).2 = true).
Proof.
  unfold check_active_builds.
  destruct (Z.eqb_spec (status r) 200) as [Hok|Hbad]; simpl.
  - split; [|split; [done|]].
    + destruct (active_builds r) as [|x rest] eqn:Hactive; simpl.
      * split; [|done]. intros _. split; [done|].
        intros j b Hj Hb. destruct (default false (building b)) eqn:Hbuilding;
          [|done].
        assert (name j +:+ "#" +:+ pretty (number b) ∈ active_builds r)
          as Hin by (apply active_builds_spec; by exists j, b).
        rewrite Hactive in Hin. by apply elem_of_nil in Hin.
      * split; [done|]. intros [_ Hnone].
        assert (x ∈ active_builds r) as Hin
          by (rewrite Hactive; apply list_elem_of_here).
        apply active_builds_spec in Hin
          as (j & b & Hj & Hb & Hbuilding & _).
        specialize (Hnone j b Hj Hb). congruence.
    + intros _ j b Hj Hb Hbuilding.
      assert (name j +:+ "#" +:+ pretty (number b) ∈ active_builds r)
        as Hin.
      { apply active_builds_spec. exists j, b. by rewrite Hbuilding. }
      destruct (active_builds r) as [|x rest] eqn:Hactive.
      { by apply elem_of_nil in Hin. }
      split; [done|].
      change (Str.contains (name j +:+ "#" +:+ pretty (number b))
                ("Active builds: " +:+ Str.join ", " (x :: rest)) = true).
      apply contains_app_l. by apply join_contains.
  - split; [|split; [done|done]].
    split; [done|]. by intros [? _].
Qed.

Lemma active_builds_block_switch_witness :
  (check_active_builds
     (ApiResponse 200
        (Some [Job "test-job"
                 (Some [Build (Some true) 1; Build (Some false) 2])]))).1
  = false
  ∧ Str.contains ("test-job" +:+ "#" +:+ pretty 1%Z)
      (check_active_builds
         (ApiResponse 200
            (Some [Job "test-job"
                     (Some [Build (Some true) 1; Build (Some false) 2])]))).2
    = true.
Proof.
  destruct (active_builds_block_switch
              (ApiResponse 200
                 (Some [Job "test-job"
                          (Some [Build (Some true) 1;
                                 Build (Some false) 2])])))
    as (_ & _ & Hnamed).
  apply (Hnamed eq_refl
           (Job "test-job"
              (Some [Build (Some true) 1; Build (Some false) 2]))
           (Build (Some true) 1));
    [apply list_elem_of_here | apply list_elem_of_here | reflexivity].
Defined.

End builds.

(** * Further properties of the HAProxy checks *)

Section haproxy_config.
Import HaproxyConfig.

(** The configuration check looks for six words anywhere in the text. *)
Lemma validate_haproxy_config_valid (config_content : string) :
  (validate_haproxy_config config_content).1 = true
  ↔ ∀ word, word ∈ required_sections ++ ["bind"; "server"] →
            Str.contains word config_content = true.
Proof.
  unfold validate_haproxy_config, required_sections. cbn [foldl app].
  split.
  - intros Hvalid word Hword.
    destruct (Str.contains "global" config_content) eqn:H1;
      destruct (Str.contains "defaults" config_content) eqn:H2;
      destruct (Str.contains "frontend" config_content) eqn:H3;
      destruct (Str.contains "backend" config_content) eqn:H4;
      destruct (Str.contains "bind" config_content) eqn:H5;
      destruct (Str.contains "server" config_content) eqn:H6;
      try discriminate Hvalid.
    repeat (apply elem_of_cons in Hword as [->|Hword]; [done|]).
    by apply elem_of_nil in Hword.
  - intros Hall.
    rewrite !Hall by repeat constructor. done.
Qed.

(** X15.  The HAProxy configuration check accepts a text exactly when
    each of the words global, defaults, frontend, backend, bind and
    server occurs somewhere in it; it reports a missing section by
    name; and it is monotone: a text that contains an accepted text is
    accepted, whatever surrounds it. *)
Theorem haproxy_check_is_word_search (config_content before after : string) :
  ((validate_haproxy_config config_content).1 = true
   ↔ ∀ word, word ∈ ["global"; "defaults"; "frontend"; "backend";
                     "bind"; "server"] →
             Str.contains word config_content = true)
  ∧ (∀ section, section ∈ ["global"; "defaults"; "frontend"; "backend"] →
       ("Missing " +:+ section +:+ " section"
          ∈ (validate_haproxy_config config_content).2
        ↔ Str.contains section config_content = false))
  ∧ ((validate_haproxy_config config_content).1 = true →
     validate_haproxy_config (before +:+ config_content +:+ after)
     = (true, [])).
Proof.
  split; [apply validate_haproxy_config_valid|]. split.
  - intros section Hsection.
    unfold validate_haproxy_config, required_sections. cbn [foldl app snd].
    repeat (apply elem_of_cons in Hsection as [->|Hsection];
            [destruct (Str.contains "global" config_content) eqn:H1;
             destruct (Str.contains "defaults" config_content) eqn:H2;
             destruct (Str.contains "frontend" config_content) eqn:H3;
             destruct (Str.contains "backend" config_content) eqn:H4;
             destruct (Str.contains "bind" config_content) eqn:H5;
             destruct (Str.contains "server" config_content) eqn:H6;
             simpl;
             (split; [intros Hin; try done;
                      repeat (apply elem_of_cons in Hin as [Hin|Hin];
                              [discriminate Hin|]);
                      by apply elem_of_nil in Hin
                     |intros Hmiss; try done;
                      first [by repeat constructor]])|]).
    by apply elem_of_nil in Hsection.
  - intros Hvalid.
    assert ((validate_haproxy_config
               (before +:+ config_content +:+ after)).1 = true) as Hext.
    { apply validate_haproxy_config_valid. intros word Hword.
      apply contains_app_l, contains_app_r.
      by apply validate_haproxy_config_valid. }
    revert Hext. unfold validate_haproxy_config.
    generalize (before +:+ config_content +:+ after). intros c.
    cbv zeta. cbn [fst].
    match goal with
    | |- (length ?l =? 0) = true → _ => destruct l; [done|discriminate]
    end.
Qed.

Lemma haproxy_check_is_word_search_witness :
  (validate_haproxy_config
     "global defaults frontend jenkins backend bind server").1 = true
  ∧ validate_haproxy_config
      ("# " +:+ "global defaults frontend jenkins backend bind server"
       +:+ " #")
    = (true, []).
Proof.
  split; [reflexivity|].
  apply (haproxy_check_is_word_search
           "global defaults frontend jenkins backend bind server"
           "# " " #").
  reflexivity.
Defined.

End haproxy_config.

Section alerts.
Import Alerts.

(** How many alerts are raised. *)
Lemma check_alert_conditions_length (m : metrics) (t : thresholds) :
  length (check_alert_conditions m t)
  = ((if Num.Qltb (max_error_rate t) (error_rate m) then 1 else 0)
     + (if (max_response_time t <? response_time_avg m)%Z then 1 else 0)
     + (if (max_connections t <? active_connections m)%Z then 1 else 0))%nat.
Proof.
  unfold check_alert_conditions.
  destruct (Num.Qltb _ _), (_ <? _)%Z, (_ <? _)%Z; reflexivity.
Qed.

(** X16.  The alert check raises one alert per threshold that is
    strictly exceeded: none when every metric is at most its threshold
    (a metric equal to its threshold raises nothing), and never more
    than three.  Raising thresholds never adds an alert. *)
Theorem alerts_follow_thresholds (m : metrics) (t t' : thresholds) :
  (check_alert_conditions m t = []
   ↔ (error_rate m <= max_error_rate t)%Q
     ∧ (response_time_avg m ≤ max_response_time t)%Z
     ∧ (active_connections m ≤ max_connections t)%Z)
  ∧ (length (check_alert_conditions m t) = 3%nat
     ↔ (max_error_rate t < error_rate m)%Q
       ∧ (max_response_time t < response_time_avg m)%Z
       ∧ (max_connections t < active_connections m)%Z)
  ∧ ((max_error_rate t <= max_error_rate t')%Q →
     (max_response_time t ≤ max_response_time t')%Z →
     (max_connections t ≤ max_connections t')%Z →
     (length (check_alert_conditions m t')
      ≤ length (check_alert_conditions m t))%nat).
Proof.
  split; [|split].
  - rewrite <- length_zero_iff_nil, check_alert_conditions_length.
    destruct (Num.Qltb _ _) eqn:Hrate;
      [apply Qltb_lt in Hrate | apply Qltb_ge in Hrate];
      destruct (Z.ltb_spec (max_response_time t) (response_time_avg m));
      destruct (Z.ltb_spec (max_connections t) (active_connections m));
      simpl; split; try done; try lia;
      try (intros (Hle & _ & _); by apply Qle_not_lt in Hle).
  - rewrite check_alert_conditions_length.
    destruct (Num.Qltb _ _) eqn:Hrate;
      [apply Qltb_lt in Hrate | apply Qltb_ge in Hrate];
      destruct (Z.ltb_spec (max_response_time t) (response_time_avg m));
      destruct (Z.ltb_spec (max_connections t) (active_connections m));
      simpl; split; try done; try lia;
      try (intros (Hlt & _ & _); by apply Qlt_not_le in Hlt).
  - intros Hrate Htime Hconn. rewrite !check_alert_conditions_length.
    assert ((if Num.Qltb (max_error_rate t') (error_rate m) then 1 else 0)
            ≤ (if Num.Qltb (max_error_rate t) (error_rate m) then 1 else 0))
           %nat as H1.
    { destruct (Num.Qltb (max_error_rate t') _) eqn:Hnew; [|lia].
      apply Qltb_lt in Hnew.
      assert (Num.Qltb (max_error_rate t) (error_rate m) = true) as ->; [|lia].
      apply Qltb_lt. by eapply Qle_lt_trans. }
    destruct (Z.ltb_spec (max_response_time t') (response_time_avg m));
      destruct (Z.ltb_spec (max_response_time t) (response_time_avg m));
      destruct (Z.ltb_spec (max_connections t') (active_connections m));
      destruct (Z.ltb_spec (max_connections t) (active_connections m));
      lia.
Qed.

Lemma alerts_follow_thresholds_witness :
  (length (check_alert_conditions (Metrics 0.10 600 150)
             (Thresholds 0.20 600 200))
   ≤ length (check_alert_conditions (Metrics 0.10 600 150)
               (Thresholds 0.05 500 100)))%nat.
Proof.
  apply (alerts_follow_thresholds (Metrics 0.10 600 150)
           (Thresholds 0.05 500 100) (Thresholds 0.20 600 200));
    by vm_compute.
Defined.

End alerts.

(** * Further properties of the state recovery *)

Section state_recovery.
Import TeamConfig StateRecovery.



(** X18.  Recovery is not attempted when the state file cannot be
    opened (it is absent, or the read fails) or when it holds JSON
    that is null, a boolean or a number: the [OSError] or [TypeError]
    is not among the exceptions the handler catches, so it escapes
    the call, and no file is changed, whatever the backup holds. *)
Theorem recovery_not_attempted (io : recovery_io)
    (state_path backup_path : string) (fs : gmap string content) :
  fs !! state_path = None
  ∨ (∃ text, state_read io = IoFails text)
  ∨ (∃ state, fs !! state_path = Some (Document state)
              ∧ (state = YNull ∨ (∃ b, state = YBool b)
                 ∨ ∃ n, state = YInt n)) →
  ∃ e, recover_from_backup io state_path backup_path fs = (Raises e, fs)
       ∧ (∀ text, e ≠ JSONDecodeError text ∧ e ≠ ValueError text).
Proof.
  unfold recover_from_backup, check_state, load.
  intros [Habsent|[[text Hread]|(state & Hstate & Hkind)]].
  - rewrite Habsent. destruct (state_read io) as [|text];
      eexists; by split.
  - rewrite Hread. eexists; by split.
  - rewrite Hstate. destruct (state_read io) as [|text].
    + destruct Hkind as [->|[[b ->]|[n ->]]]; eexists; by split.
    + eexists; by split.
Qed.

Lemma recovery_not_attempted_witness :
  ∃ e, recover_from_backup (RecoveryIo IoOk IoOk Written)
         "current_state.json" "state_backup.json"
         {["state_backup.json" := Document (YDict {["teams" := YDict ∅]})]}
       = (Raises e,
          {["state_backup.json" :=
              Document (YDict {["teams" := YDict ∅]})]})
       ∧ (∀ text, e ≠ JSONDecodeError text ∧ e ≠ ValueError text).
Proof.
  apply (recovery_not_attempted (RecoveryIo IoOk IoOk Written)
           "current_state.json" "state_backup.json"
           {["state_backup.json" :=
               Document (YDict {["teams" := YDict ∅]})]}).
  left. by vm_compute.
Defined.



End state_recovery.
